(** * lancedb.embeddings.utils: batching, retry and caching wrappers

    A shallow embedding of [python/lancedb/embeddings/utils.py] and the
    properties its specification states about it.

    Conventions.
    - A Python call that may raise is a value of [result]; a call that also
      has effects is a computation of the monad [M] over the [world].
    - Python [int] is [Z]; Python [float] is modelled by exact rationals [Q]
      (rounding of binary floating point is not represented).
    - A generator is modelled by the list of the values it yields, or by the
      exception it raises when it is first advanced. *)

From Stdlib Require Import String ZArith QArith Qpower Qminmax List Bool Arith Lia Lqa.
From Stdlib Require Import DecimalString.
Import ListNotations.

Set Implicit Arguments.

(** ** Exceptions and results *)

Inductive exn : Type :=
| TypeError (msg : string)
| ValueError (msg : string)
| ZeroDivisionError (msg : string)
| OverflowError (msg : string)
| KeyError (key : string)
| ArrowInvalid (msg : string)
| UserError (tag : nat)                    (* raised by a wrapped function *)
| Exception_ (msg : string) (arg : exn).   (* [Exception(msg, e)] *)

Inductive result (A : Type) : Type :=
| Ok (a : A)
| Err (e : exn).

Arguments Ok {A} a.
Arguments Err {A} e.

Definition rbind {A B} (r : result A) (k : A -> result B) : result B :=
  match r with
  | Ok a => k a
  | Err e => Err e
  end.

(** ** Python built-ins used by the module *)

Module Py.

(** [len(range(start, stop, step))] for a non-zero step. *)
Definition range_len (start stop step : Z) : Z :=
  if (0 <? step)%Z then
    if (start <? stop)%Z then (stop - start - 1) / step + 1 else 0
  else
    if (stop <? start)%Z then (start - stop - 1) / (- step) + 1 else 0.

(** [range(start, stop, step)]: item [i] is [start + i * step]. *)
Definition range (start stop step : Z) : result (list Z) :=
  if (step =? 0)%Z then Err (ValueError "range() arg 3 must not be zero")
  else Ok (map (fun i => start + Z.of_nat i * step)
               (seq 0 (Z.to_nat (range_len start stop step))))%Z.

(** Bound of a slice: negative indices count from the end, and every
    index is clamped to [0 .. len]. *)
Definition clamp (len i : Z) : Z :=
  if (i <? 0)%Z then Z.max (i + len) 0 else Z.min i len.

(** [arr[lo:hi]] *)
Definition slice {A} (arr : list A) (lo hi : Z) : list A :=
  let len := Z.of_nat (length arr) in
  let l := clamp len lo in
  let h := clamp len hi in
  firstn (Z.to_nat (h - l)) (skipn (Z.to_nat l) arr).

(** [math.ceil(a / b)] for integers [a], [b] with [b <> 0]. *)
Definition ceil_div (a b : Z) : Z := (- ((- a) / b))%Z.

(** [str(n)] for an integer. *)
Definition str (n : Z) : string := NilEmpty.string_of_int (Z.to_int n).

(** [float(flag)] for a [bool]: [True] is [1], [False] is [0]. *)
Definition float_of_bool (flag : bool) : Q := if flag then 1 else 0.

(** The longest duration, in seconds, that a signed 64-bit count of
    nanoseconds holds: the range of [time.sleep] where the interpreter keeps
    time in such a count. *)
Definition time_t_max : Q := 9223372036854775807 # 1000000000.

End Py.

(** ** The world a call runs in *)

Inductive log_record : Type :=
| Retrying (delay : Q) (cause : exn).   (* "Retrying in {delay} seconds due to {e}" *)

Section World.

Variable S : Type.                     (* state owned by the wrapped function *)

Record world : Type := World {
  user : S;
  version_minor : Z;                   (* [sys.version_info.minor] *)
  sleep_max : Q;                       (* the longest duration [time.sleep] takes *)
  random_src : nat -> Q;               (* the values [random.random()] returns *)
  random_ix : nat;                     (* how many have been drawn *)
  slept : list Q;                      (* completed timed suspensions, oldest first *)
  stdout : list string;                (* printed lines, oldest first *)
  log : list log_record;               (* LOGGER records, oldest first *)
  throttled : nat                      (* calls that went through a rate limiter *)
}.

Definition set_user (s : S) (w : world) : world :=
  World s (version_minor w) (sleep_max w) (random_src w) (random_ix w) (slept w)
        (stdout w) (log w) (throttled w).

Definition set_random_ix (i : nat) (w : world) : world :=
  World (user w) (version_minor w) (sleep_max w) (random_src w) i (slept w)
        (stdout w) (log w) (throttled w).

Definition set_slept (l : list Q) (w : world) : world :=
  World (user w) (version_minor w) (sleep_max w) (random_src w) (random_ix w) l
        (stdout w) (log w) (throttled w).

Definition set_stdout (l : list string) (w : world) : world :=
  World (user w) (version_minor w) (sleep_max w) (random_src w) (random_ix w) (slept w)
        l (log w) (throttled w).

Definition set_log (l : list log_record) (w : world) : world :=
  World (user w) (version_minor w) (sleep_max w) (random_src w) (random_ix w) (slept w)
        (stdout w) l (throttled w).

Definition set_throttled (n : nat) (w : world) : world :=
  World (user w) (version_minor w) (sleep_max w) (random_src w) (random_ix w) (slept w)
        (stdout w) (log w) n.

Definition M (A : Type) : Type := world -> result A * world.

Definition ret {A} (a : A) : M A := fun w => (Ok a, w).

Definition raise {A} (e : exn) : M A := fun w => (Err e, w).

Definition bind {A B} (m : M A) (k : A -> M B) : M B :=
  fun w =>
    match m w with
    | (Ok a, w1) => k a w1
    | (Err e, w1) => (Err e, w1)
    end.

(** [try: m  except Exception as e: ...]: the outcome of [m] as a value. *)
Definition try_ {A} (m : M A) : M (result A) :=
  fun w => let (r, w1) := m w in (Ok r, w1).

Definition lift_result {A} (r : result A) : M A := fun w => (r, w).

(** A wrapped function only sees and changes its own state. *)
Definition lift_user {A} (f : S -> result A * S) : M A :=
  fun w => let (r, s) := f (user w) in (r, set_user s w).

(** [sys.version_info.minor] *)
Definition sys_version_info_minor : M Z :=
  fun w => (Ok (version_minor w), w).

(** [random.random()] *)
Definition random : M Q :=
  fun w =>
    (Ok (random_src w (random_ix w)), set_random_ix (Datatypes.S (random_ix w)) w).

(** [time.sleep(secs)]: the duration is first converted to the
    interpreter's clock, which raises [OverflowError] when it is out of the
    clock's range (on either side); a negative duration is then refused with
    [ValueError]. *)
Definition time_sleep (secs : Q) : M unit :=
  fun w =>
    if negb (Qle_bool (- sleep_max w) secs && Qle_bool secs (sleep_max w)) then
      (Err (OverflowError "timestamp too large to convert to C _PyTime_t"), w)
    else if negb (Qle_bool 0 secs) then
      (Err (ValueError "sleep length must be non-negative"), w)
    else
      (Ok tt, set_slept (slept w ++ [secs]) w).

(** [print(line)] *)
Definition print (line : string) : M unit :=
  fun w => (Ok tt, set_stdout (stdout w ++ [line]) w).

(** [LOGGER.info(...)] *)
Definition logger_info (r : log_record) : M unit :=
  fun w => (Ok tt, set_log (log w ++ [r]) w).

End World.

Arguments ret {S A} a.
Arguments raise {S A} e.
Arguments lift_result {S A} r.
Arguments sys_version_info_minor {S}.
Arguments random {S}.
Arguments time_sleep {S} secs.
Arguments print {S} line.
Arguments logger_info {S} r.

Declare Scope py_scope.
Delimit Scope py_scope with py.
Notation "x <- m ;; k" := (bind m (fun x => k))
  (at level 61, m at next level, right associativity) : py_scope.
Notation "m ;;; k" := (bind m (fun _ => k))
  (at level 61, right associativity) : py_scope.

(** ** External collaborators of the pipeline *)

(** The package [retry], whose decorator [FunctionWrapper.__call__] applies.
    It is not part of this repository. *)
Module RetryPkg.

(** The keyword arguments [FunctionWrapper.retry] stores; [tries] is a
    positive integer. *)
Record kwargs : Type := Kwargs {
  tries : positive;
  delay : Q;
  max_delay : Q;
  backoff : Q;
  jitter : Q
}.

Section Decorator.

Variables S A : Type.

(** Modelled from the spec: the wait between two attempts, a timed
    suspension of the caller. *)
Definition suspend (secs : Q) : M S unit :=
  fun w => (Ok tt, set_slept (slept w ++ [secs]) w).

(** Modelled from the spec: one attempt of the retry policy, with [more]
    attempts left after it and [wait] the delay before the next one.  Any
    exception of the wrapped call causes a retry while attempts are left;
    the delay is multiplied by [backoff] for each later attempt, with up to
    [jitter] seconds of random delay added, and is capped at [max_delay];
    the exception of the last attempt propagates unchanged. *)
Fixpoint attempts (kw : kwargs) (f : M S A) (more : nat) (wait : Q)
  : M S A :=
  (r <- try_ f ;;
   match r with
   | Ok a => ret a
   | Err e =>
       match more with
       | O => raise e
       | Datatypes.S more' =>
           suspend wait ;;;
           j <- random ;;
           attempts kw f more'
             (Qmin (wait * backoff kw + jitter kw * j) (max_delay kw))
       end
   end)%py.

(** Modelled from the spec: the decorator [retry(tries, delay, max_delay,
    backoff, jitter)]: up to [tries] attempts in total, the delay starting
    at [delay]. *)
Definition retry (kw : kwargs) (f : M S A) : M S A :=
  attempts kw f (Pos.to_nat (tries kw) - 1) (delay kw).

End Decorator.

End RetryPkg.

(** The package [ratelimiter].  It is not part of this repository. *)
Module RateLimiterPkg.

Record kwargs : Type := Kwargs {
  max_calls : Q;
  period : Q
}.

Section Limiter.

Variables S A B : Type.

(** Modelled from the spec: the sliding window lets the call through,
    after blocking the caller as long as needed (wall-clock time is not
    represented). *)
Definition acquire : M S unit :=
  fun w => (Ok tt, set_throttled (Datatypes.S (throttled w)) w).

(** Modelled from the spec: [ratelimiter.RateLimiter(max_calls, period)]
    applied to a function.  Every call is executed, once the sliding
    window of [period] seconds lets it through.  Only the passage through
    the limiter is recorded: neither the check of the arguments when the
    limiter is built, nor the time a call is held back, is represented. *)
Definition limiter (kw : kwargs) (f : A -> M S B) : A -> M S B :=
  fun c => (acquire ;;; f c)%py.

End Limiter.

End RateLimiterPkg.

(** ** class FunctionWrapper *)

Module FunctionWrapper.

Definition WARNING : string :=
  "WARNING: rate limit only support up to 3.10, proceeding without rate limiter".

Section Class.

Variables Item Vec S : Type.

(** The keyword dictionaries are either empty ([None]) or hold exactly
    the keys the builder method stores ([Some]). *)
Record t : Type := Make {
  func : list Item -> S -> result (list Vec) * S;
  rate_limiter_kwargs : option RateLimiterPkg.kwargs;
  retry_kwargs : option RetryPkg.kwargs;
  _batch_size : option Z;
  _progress : bool
}.

Definition __init__ (func : list Item -> S -> result (list Vec) * S) : t :=
  Make func None None None false.

Definition rate_limit (self : t) (max_calls period : Q) : result t :=
  Ok (Make (func self)
           (Some (RateLimiterPkg.Kwargs max_calls period))
           (retry_kwargs self) (_batch_size self) (_progress self)).

Definition retry (self : t) (tries : positive)
           (delay max_delay backoff jitter : Q) : result t :=
  Ok (Make (func self) (rate_limiter_kwargs self)
           (Some (RetryPkg.Kwargs tries delay max_delay backoff jitter))
           (_batch_size self) (_progress self)).

Definition batch_size (self : t) (batch_size : Z) : result t :=
  Ok (Make (func self) (rate_limiter_kwargs self) (retry_kwargs self)
           (Some batch_size) (_progress self)).

Definition show_progress (self : t) : result t :=
  Ok (Make (func self) (rate_limiter_kwargs self) (retry_kwargs self)
           (_batch_size self) true).

(** The generator [_chunker] of [to_batches]. *)
Definition _chunker (self : t) (arr : list Item)
  : result (list (list Item)) :=
  match _batch_size self with
  | None =>
      Err (TypeError "'NoneType' object cannot be interpreted as an integer")
  | Some b =>
      rbind (Py.range 0 (Z.of_nat (length arr)) b) (fun starts =>
      Ok (map (fun start_i => Py.slice arr start_i (start_i + b)) starts))
  end.

(** [math.ceil(length / self._batch_size)], the total handed to the
    progress indicator. *)
Definition progress_total (self : t) (length : Z) : result Z :=
  match _batch_size self with
  | None =>
      Err (TypeError "unsupported operand type(s) for /: 'int' and 'NoneType'")
  | Some b =>
      if (b =? 0)%Z then Err (ZeroDivisionError "division by zero")
      else Ok (Py.ceil_div length b)
  end.

(** [tqdm(iterable, total=...)] yields the items of [iterable]. *)
Definition tqdm {A} (iterable : result (list A)) (total : Z)
  : result (list A) := iterable.

Definition to_batches (self : t) (arr : list Item)
  : result (list (list Item)) :=
  let length := Z.of_nat (length arr) in
  if _progress self then
    rbind (progress_total self length) (fun total =>
    tqdm (_chunker self arr) total)
  else
    _chunker self arr.

(** [c.tolist()] *)
Definition tolist (c : list Item) : list Item := c.

(** [[emb for c in batches for emb in embed_func(c)]] *)
Fixpoint comprehension (embed_func : list Item -> M S (list Vec))
         (batches : list (list Item)) : M S (list Vec) :=
  match batches with
  | [] => ret []
  | c :: rest =>
      (embs <- embed_func c ;;
       embeds <- comprehension embed_func rest ;;
       ret (embs ++ embeds))%py
  end.

Definition __call__ (self : t) (text : list Item) : M S (list Vec) :=
  let embed_func : list Item -> M S (list Vec) :=
    match retry_kwargs self with
    | Some kw =>
        fun c => RetryPkg.retry kw (lift_user (func self (tolist c)))
    | None =>
        fun c => lift_user (func self (tolist c))
    end in
  (embed_func <-
     match rate_limiter_kwargs self with
     | Some kw =>
         v <- sys_version_info_minor ;;
         if (11 <=? v)%Z then
           print WARNING ;;; ret embed_func
         else
           ret (RateLimiterPkg.limiter kw embed_func)
     | None => ret embed_func
     end ;;
   batches <- lift_result (to_batches self text) ;;
   comprehension embed_func batches)%py.

End Class.

End FunctionWrapper.

(** ** with_embeddings *)

(** Tables of [pyarrow], as far as [with_embeddings] uses them. *)
Module Arrow.

Section Table.

Variable cell : Type.

Definition column : Type := list cell.

(** A table: its columns in order, each with its name. *)
Definition Table : Type := list (string * column).

Definition num_rows (data : Table) : nat :=
  match data with
  | [] => O
  | (_, c) :: _ => length c
  end.

(** Modelled from the spec: [data[name]], the column of that name; the
    named column must exist (and be the only one of that name). *)
Definition getitem (data : Table) (name : string) : result column :=
  match filter (fun nc => String.eqb (fst nc) name) data with
  | [(_, c)] => Ok c
  | _ => Err (KeyError name)
  end.

(** [column.to_numpy()] *)
Definition to_numpy (c : column) : list cell := c.

(** Modelled from the spec: [data.append_column(name, col)], a new table
    with one more column at the end; a column of another length than the
    table is refused. *)
Definition append_column (data : Table) (name : string) (col : column)
  : result Table :=
  if Nat.eqb (length col) (num_rows data) then Ok (data ++ [(name, col)])
  else Err (ArrowInvalid "Added column's length must match table's length").

End Table.

End Arrow.

Section WithEmbeddings.

Variables cell Vec S DataFrame : Type.

(** [pa.Table.from_pandas(data, preserve_index=False)] *)
Variable from_pandas : DataFrame -> Arrow.Table cell.

(** [vec_to_table(np.array(embeddings))["vector"]], from the package
    [lance]: the embeddings as a column of fixed-width vectors, when they
    can be laid out as one. *)
Variable vec_to_table : list Vec -> result (Arrow.column cell).

Inductive DATA : Type :=
| PaTable (t : Arrow.Table cell)
| PdDataFrame (df : DataFrame).

(** The table the embeddings are added to. *)
Definition table_of (data : DATA) : Arrow.Table cell :=
  match data with
  | PdDataFrame df => from_pandas df
  | PaTable t => t
  end.

(** The pipeline [with_embeddings] builds around [func]; [retry()] and
    [rate_limit()] are called with their default arguments. *)
Definition configured (func : list cell -> S -> result (list Vec) * S)
           (wrap_api show_progress : bool) (batch_size : Z)
  : result (FunctionWrapper.t cell Vec S) :=
  let func := FunctionWrapper.__init__ func in
  rbind (if wrap_api
         then rbind (FunctionWrapper.retry func 10 1 30 3 1) (fun func =>
              FunctionWrapper.rate_limit func (9 # 10) 1)
         else Ok func) (fun func =>
  rbind (FunctionWrapper.batch_size func batch_size) (fun func =>
  if show_progress then FunctionWrapper.show_progress func else Ok func)).

(** The defaults are [column = "text"], [wrap_api = True],
    [show_progress = False] and [batch_size = 1000]. *)
Definition with_embeddings (func : list cell -> S -> result (list Vec) * S)
           (data : DATA) (column : string) (wrap_api show_progress : bool)
           (batch_size : Z) : M S (Arrow.Table cell) :=
  (func <- lift_result (configured func wrap_api show_progress batch_size) ;;
   let data := table_of data in
   col <- lift_result (Arrow.getitem data column) ;;
   embeddings <- FunctionWrapper.__call__ func (Arrow.to_numpy col) ;;
   vector <- lift_result (vec_to_table embeddings) ;;
   lift_result (Arrow.append_column data "vector" vector))%py.

End WithEmbeddings.

(** A table with a text column, and an embedding of a text by its length. *)
Definition sample_cell : Type := (string + list nat)%type.

Definition sample_table : Arrow.Table sample_cell :=
  [("id"%string, [inr [1%nat]; inr [2%nat]; inr [3%nat]]);
   ("text"%string, [inl "a"%string; inl "bb"%string; inl "ccc"%string])].

Definition sample_embed : list sample_cell -> unit -> result (list (list nat)) * unit :=
  fun xs s =>
    (Ok (map (fun c => match c with
                       | inl text => [String.length text]
                       | inr v => v
                       end) xs), s).

Definition sample_vec_to_table (embeddings : list (list nat))
  : result (Arrow.column sample_cell) :=
  Ok (map inr embeddings).

(** ** retry_with_exponential_backoff *)

Section RetryWithExponentialBackoff.

Variables S A : Type.

Variable func : M S A.                 (* the call of [func] on the arguments *)
Variable initial_delay : Q.
Variable exponential_base : Q.
Variable jitter : bool.
Variable max_retries : Z.

Definition exceeded_message : string :=
  ("Maximum number of retries (" ++ Py.str max_retries ++ ") exceeded.")%string.

(** The body of the [except] clause below the test of the ceiling. *)
Definition back_off (delay : Q) (e : exn) : M S Q :=
  (r <- random ;;
   let delay := delay * (exponential_base * (1 + Py.float_of_bool jitter * r)) in
   logger_info (Retrying delay e) ;;;
   time_sleep delay ;;;
   ret delay)%py.

(** The [while True] loop of [wrapper]; [None] when [fuel] iterations did
    not finish it. *)
Fixpoint wrapper_loop (fuel : nat) (num_retries : Z) (delay : Q)
         (w : world S) : option (result A * world S) :=
  match fuel with
  | O => None
  | Datatypes.S fuel' =>
      match func w with
      | (Ok a, w1) => Some (Ok a, w1)
      | (Err e, w1) =>
          let num_retries := (num_retries + 1)%Z in
          if (max_retries <? num_retries)%Z then
            Some (Err (Exception_ exceeded_message e), w1)
          else
            match back_off delay e w1 with
            | (Ok delay, w2) => wrapper_loop fuel' num_retries delay w2
            | (Err e', w2) => Some (Err e', w2)
            end
      end
  end.

Definition wrapper (fuel : nat) (w : world S)
  : option (result A * world S) :=
  wrapper_loop fuel 0 initial_delay w.

(** [retry_with_exponential_backoff(func, ...)] returns [wrapper]. *)
Definition retry_with_exponential_backoff
  : nat -> world S -> option (result A * world S) :=
  wrapper.

End RetryWithExponentialBackoff.

(** ** weak_lru *)

Module WeakLru.

(** Objects are known by their identity; an identity is never reused. *)
Definition addr : Type := nat.

(** How the class of an object compares and hashes its instances: by
    identity (the default of [object]), or by value ([__eq__] and [__hash__]
    defined over the [payload]). *)
Inductive eq_kind : Type := ByIdentity | ByValue.

Record object : Type := Object {
  kind : eq_kind;
  payload : Z
}.

(** Values passed as arguments and returned as results: a number, or a
    (strong) reference to an object. *)
Inductive value : Type :=
| VInt (z : Z)
| VRef (a : addr).

(** [weakref.ref(obj)].  A weak reference to an object is unique while it is
    held, so two references are the same reference object exactly when they
    have the same referent. *)
Record weakref : Type := WeakRef { referent : addr }.

(** A key of the cache of [functools.lru_cache]: the positional arguments
    of [_func], that is the weak reference and the arguments of the call. *)
Definition key : Type := (weakref * list value)%type.

Definition entry : Type := (key * value)%type.

Record state : Type := State {
  roots : list addr;                      (* objects the program still refers to *)
  cache : list entry;                     (* most recently used first *)
  invocations : list (addr * list value)  (* calls of the decorated method, oldest first *)
}.

(** The objects a value refers to. *)
Definition refs (v : value) : list addr :=
  match v with
  | VInt _ => []
  | VRef a => [a]
  end.

(** The objects an entry of the cache owns: those its arguments and its
    result refer to.  The receiver is only weakly referred to. *)
Definition entry_strong (e : entry) : list addr :=
  flat_map refs (snd (fst e)) ++ refs (snd e).

Definition cache_strong (c : list entry) : list addr :=
  flat_map entry_strong c.

Definition mem (a : addr) (l : list addr) : bool := existsb (Nat.eqb a) l.

(** An object is alive while the program or the cache refers to it. *)
Definition alive (st : state) (a : addr) : bool :=
  mem a (roots st) || mem a (cache_strong (cache st)).

(** During a call, the receiver and the arguments are alive as well. *)
Definition alive_in_call (st : state) (self : addr) (args : list value)
           (a : addr) : bool :=
  Nat.eqb a self || mem a (flat_map refs args) || alive st a.

Section Decorator.

Variable heap : addr -> object.           (* the objects, by identity *)
Variable maxsize : Z.
Variable func : addr -> list value -> value.   (* the decorated method *)

(** [a == b] on objects. *)
Definition obj_eqb (a b : addr) : bool :=
  Nat.eqb a b
  || match kind (heap a), kind (heap b) with
     | ByValue, ByValue => Z.eqb (payload (heap a)) (payload (heap b))
     | _, _ => false
     end.

Definition value_eqb (x y : value) : bool :=
  match x, y with
  | VInt m, VInt n => Z.eqb m n
  | VRef a, VRef b => obj_eqb a b
  | _, _ => false
  end.

Fixpoint args_eqb (xs ys : list value) : bool :=
  match xs, ys with
  | [], [] => true
  | x :: xs', y :: ys' => value_eqb x y && args_eqb xs' ys'
  | _, _ => false
  end.

(** [r1 == r2] on weak references: the referents are compared when both
    are alive, the reference objects otherwise.  (The hash of a reference
    is the hash of its referent, so equal keys have equal hashes.) *)
Definition weakref_eqb (live : addr -> bool) (r1 r2 : weakref) : bool :=
  if live (referent r1) && live (referent r2)
  then obj_eqb (referent r1) (referent r2)
  else Nat.eqb (referent r1) (referent r2).

Definition key_eqb (live : addr -> bool) (k1 k2 : key) : bool :=
  weakref_eqb live (fst k1) (fst k2) && args_eqb (snd k1) (snd k2).

(** The entry stored under a key equal to [k], and the other entries. *)
Fixpoint lookup (live : addr -> bool) (k : key) (c : list entry)
  : option (entry * list entry) :=
  match c with
  | [] => None
  | e :: rest =>
      if key_eqb live (fst e) k then Some (e, rest)
      else match lookup live k rest with
           | Some (hit, rest') => Some (hit, e :: rest')
           | None => None
           end
  end.

(** [_func(_self, *args)] under [functools.lru_cache(maxsize)]: a hit moves
    the entry to the front; a miss calls [func(_self(), *args)], stores the
    result in front and drops the least recently used entries beyond
    [maxsize]; with [maxsize <= 0] nothing is stored. *)
Definition _func (st : state) (_self : weakref) (args : list value)
  : value * state :=
  let live := alive_in_call st (referent _self) args in
  let call :=
    (func (referent _self) args,
     invocations st ++ [(referent _self, args)]) in
  if (maxsize <=? 0)%Z then
    (fst call, State (roots st) (cache st) (snd call))
  else
    match lookup live (_self, args) (cache st) with
    | Some (hit, rest) =>
        (snd hit, State (roots st) (hit :: rest) (invocations st))
    | None =>
        (fst call,
         State (roots st)
               (firstn (Z.to_nat maxsize) (((_self, args), fst call) :: cache st))
               (snd call))
    end.

Definition inner (st : state) (self : addr) (args : list value)
  : value * state :=
  _func st (WeakRef self) args.

(** [weak_lru(maxsize)(func)] is [wrapper(func)], which returns [inner]. *)
Definition weak_lru : state -> addr -> list value -> value * state :=
  inner.

(** What a program does with the decorated method and its receivers. *)
Inductive op : Type :=
| Call (self : addr) (args : list value)  (* a call of the decorated method on [self] *)
| Del (a : addr).                         (* the program drops its references to [a] *)

Definition step (st : state) (o : op) : state :=
  match o with
  | Call self args => snd (inner st self args)
  | Del a =>
      State (filter (fun b => negb (Nat.eqb a b)) (roots st)) (cache st)
            (invocations st)
  end.

Definition run (ops : list op) (st : state) : state :=
  fold_left step ops st.

(** [ops] passes no reference to [a] as an argument. *)
Definition passes_no_ref (a : addr) (o : op) : Prop :=
  match o with
  | Call _ args => ~ In a (flat_map refs args)
  | Del _ => True
  end.

End Decorator.

(** Two objects that are equal by value, a third that compares by identity. *)
Definition sample_heap : addr -> object :=
  fun a => match a with
           | 0%nat | 1%nat => Object ByValue 5
           | _ => Object ByIdentity 0
           end.

(** A method that returns the identity of its receiver, as a number. *)
Definition whoami : addr -> list value -> value :=
  fun self _ => VInt (Z.of_nat self).

(** A method that returns its receiver. *)
Definition me : addr -> list value -> value :=
  fun self _ => VRef self.

Definition start (roots : list addr) : state := State roots [] [].

End WeakLru.

(** ** Notions the properties of the pipeline are stated with *)

Section CallNotions.

Local Open Scope nat_scope.

Variables S A : Type.


(** [f] with a counter of its invocations beside its state. *)
Definition counted (f : S -> result A * S) : S * nat -> result A * (S * nat) :=
  fun sn => let (r, s) := f (fst sn) in (r, (s, Datatypes.S (snd sn))).


End CallNotions.

Section PipelineNotions.

Local Open Scope nat_scope.

Variables Item Vec S : Type.


(** The function each batch goes through when no rate limiter is applied. *)
Definition per_batch (self : FunctionWrapper.t Item Vec S)
  : list Item -> M S (list Vec) :=
  match FunctionWrapper.retry_kwargs self with
  | Some kw =>
      fun c => RetryPkg.retry kw
                 (lift_user (FunctionWrapper.func self (FunctionWrapper.tolist c)))
  | None =>
      fun c => lift_user (FunctionWrapper.func self (FunctionWrapper.tolist c))
  end.

(** [batch_results f batches s results s']: calling [f] on each batch in
    turn, from state [s], returns [results] one by one and ends in [s']. *)
Inductive batch_results (f : list Item -> S -> result (list Vec) * S)
  : list (list Item) -> S -> list (list Vec) -> S -> Prop :=
| batch_results_nil : forall s, batch_results f [] s [] s
| batch_results_cons : forall c rest s embs s1 results s2,
    f c s = (Ok embs, s1) ->
    batch_results f rest s1 results s2 ->
    batch_results f (c :: rest) s (embs :: results) s2.

(** [embed_func] follows [f]: where [f] returns, [embed_func] returns the
    same vectors and leaves the state of [f] as [f] does. *)
Definition follows (embed_func : list Item -> M S (list Vec))
           (f : list Item -> S -> result (list Vec) * S) : Prop :=
  forall c w embs s1,
    f c (user w) = (Ok embs, s1) ->
    exists w1, embed_func c w = (Ok embs, w1) /\ user w1 = s1.


End PipelineNotions.

(** ** Notions the properties of the backoff are stated with *)

(** The delay after [n] updates [delay *= base * (1 + jitter * random())],
    starting from [delay], when the draws are [draws 0], [draws 1], ... *)
Fixpoint jittered_delay (exponential_base : Q) (jitter : bool)
         (draws : nat -> Q) (delay : Q) (n : nat) : Q :=
  match n with
  | O => delay
  | Datatypes.S n' =>
      jittered_delay exponential_base jitter (fun i => draws (Datatypes.S i))
        (delay * (exponential_base * (1 + Py.float_of_bool jitter * draws O)))
        n'
  end.

(** A duration that [time.sleep] takes when its range ends at [limit]. *)
Definition sleepable (limit : Q) (secs : Q) : Prop :=
  0 <= secs /\ secs <= limit.

(** A function that raises on every call. *)
Definition always_fails : unit -> result nat * unit :=
  fun s => (Err (UserError 7), s).

(** A function that raises twice and then returns. *)
Definition fails_twice : nat -> result nat * nat :=
  fun s => (if (s <? 2)%nat then Err (UserError s) else Ok 42%nat, Datatypes.S s).

(** The world in which [retry_with_exponential_backoff(fails_twice)] ends,
    started in [sample_world 0 10]: three invocations, two draws, two sleeps. *)
Definition sample_backoff_end : world nat :=
  let d1 := jittered_delay 2 true (fun _ => 1 # 2) 1 1 in
  let d2 := jittered_delay 2 true (fun _ => 1 # 2) 1 2 in
  World 3%nat 10 Py.time_t_max (fun _ => 1 # 2) 2 [d1; d2] []
        [Retrying d1 (UserError 0); Retrying d2 (UserError 1)] 0.

(** The world in which three retries around [always_fails] end, started in
    [sample_world (tt, 0) 10]: four invocations, three draws, three sleeps. *)
Definition sample_gives_up_end : world (unit * nat) :=
  let d1 := jittered_delay 2 true (fun _ => 1 # 2) 1 1 in
  let d2 := jittered_delay 2 true (fun _ => 1 # 2) 1 2 in
  let d3 := jittered_delay 2 true (fun _ => 1 # 2) 1 3 in
  World (tt, 4%nat) 10 Py.time_t_max (fun _ => 1 # 2) 3 [d1; d2; d3] []
        [Retrying d1 (UserError 7); Retrying d2 (UserError 7);
         Retrying d3 (UserError 7)] 0.


(** Sample pipelines, on which the statements below are run. *)

Definition sample_wrapper : FunctionWrapper.t nat nat unit :=
  FunctionWrapper.Make (fun xs s => (Ok xs, s)) None None (Some 2%Z) true.

Definition sample_world {S} (s : S) (minor : Z) : world S :=
  World s minor Py.time_t_max (fun _ => 1 # 2) 0 [] [] [] 0.

(** A pipeline with retry and rate limiter that doubles its items and counts
    its invocations. *)
Definition sample_pipeline : FunctionWrapper.t nat nat nat :=
  FunctionWrapper.Make
    (fun xs s => (Ok (map (fun x => 2 * x)%nat xs), Datatypes.S s))
    (Some (RateLimiterPkg.Kwargs (9 # 10) 1))
    (Some (RetryPkg.Kwargs 10 1 30 3 1))
    (Some 2%Z) false.

(** A pipeline with three attempts for each batch, around a function that
    only returns on every third invocation. *)
Definition flaky_pipeline : FunctionWrapper.t nat nat nat :=
  FunctionWrapper.Make
    (fun xs s => (if (s mod 3 =? 2)%nat then Ok xs else Err (UserError s),
                  Datatypes.S s))
    None
    (Some (RetryPkg.Kwargs 3 1 30 3 1))
    (Some 2%Z) false.

(** [flaky_pipeline] behind a rate limiter. *)
Definition limited_flaky_pipeline : FunctionWrapper.t nat nat nat :=
  FunctionWrapper.Make (FunctionWrapper.func flaky_pipeline)
    (Some (RateLimiterPkg.Kwargs (9 # 10) 1))
    (FunctionWrapper.retry_kwargs flaky_pipeline)
    (FunctionWrapper._batch_size flaky_pipeline) false.


(** ** Notions further properties are stated with *)

Section MoreNotions.

Variables S A : Type.

(** A computation that neither reads nor writes the count of calls that
    went through a rate limiter. *)
Definition limiter_frame (m : M S A) : Prop :=
  forall w n, m (set_throttled n w) = (fst (m w), set_throttled n (snd (m w))).

End MoreNotions.

(** Every entry of the cache holds what the method returns for its key. *)
Definition coherent (func : WeakLru.addr -> list WeakLru.value -> WeakLru.value)
           (c : list WeakLru.entry) : Prop :=
  Forall (fun e => snd e = func (WeakLru.referent (fst (fst e))) (snd (fst e))) c.

(** The calls a program makes among its operations. *)
Definition calls (ops : list WeakLru.op) : list (WeakLru.addr * list WeakLru.value) :=
  flat_map (fun o => match o with
                     | WeakLru.Call self args => [(self, args)]
                     | WeakLru.Del _ => []
                     end) ops.

(** Proof of [limiter_frame] for a primitive of the world. *)
Ltac limiter_frame_prim :=
  intros w n; destruct w; cbn; reflexivity.

(** A pipeline without retry whose function counts its invocations and
    raises on the batch that starts with [30]. *)
Definition picky_pipeline : FunctionWrapper.t nat nat nat :=
  FunctionWrapper.Make
    (fun xs s => (match xs with
                  | 30%nat :: _ => Err (UserError s)
                  | _ => Ok xs
                  end, Datatypes.S s))
    (Some (RateLimiterPkg.Kwargs (9 # 10) 1))
    None
    (Some 2%Z) false.

(** A pipeline with a negative batch size. *)
Definition negative_pipeline : FunctionWrapper.t nat nat nat :=
  FunctionWrapper.Make (fun xs s => (Ok xs, Datatypes.S s)) None None
                       (Some (-3)%Z) false.

(** A pipeline with retry, rate limiter and progress around the identity,
    with a counter of the invocations. *)
Definition counting_pipeline : FunctionWrapper.t nat nat (unit * nat) :=
  FunctionWrapper.Make
    (fun xs => counted (fun s : unit => (Ok xs, s)))
    (Some (RateLimiterPkg.Kwargs (9 # 10) 1))
    (Some (RetryPkg.Kwargs 10 1 30 3 1))
    (Some 2%Z) true.

(** A pipeline that was never given a batch size. *)
Definition unsized_pipeline : FunctionWrapper.t nat nat nat :=
  FunctionWrapper.__init__ (fun xs s => (Ok xs, Datatypes.S s)).

(* ================================================================= *)
(** * Properties *)

(** ** Batcher *)

Module BatcherFacts.

Local Open Scope nat_scope.

Section Chunks.

Variable A : Type.

(** Chunks of width [b] taken at offsets [0, b, 2b, ...] rebuild the
    list as soon as they reach its end. *)
Lemma concat_chunks (b k : nat) :
  forall arr : list A,
    length arr <= k * b ->
    concat (map (fun i => firstn b (skipn (i * b) arr)) (seq 0 k)) = arr.
Proof.
  induction k as [|k IH]; intros arr Hlen.
  - destruct arr; [reflexivity | simpl in Hlen; lia].
  - cbn [seq map concat].
    rewrite <- seq_shift, map_map.
    replace (skipn (0 * b) arr) with arr by reflexivity.
    rewrite (map_ext _ (fun i => firstn b (skipn (i * b) (skipn b arr)))).
    + rewrite IH.
      * apply firstn_skipn.
      * rewrite length_skipn. lia.
    + intros i. rewrite skipn_skipn. do 2 f_equal. lia.
Qed.

Lemma slice_chunk (arr : list A) (b : Z) (i : nat) :
  (0 < b)%Z ->
  i * Z.to_nat b < length arr ->
  Py.slice arr (0 + Z.of_nat i * b) (0 + Z.of_nat i * b + b)
  = firstn (Z.to_nat b) (skipn (i * Z.to_nat b) arr).
Proof.
  intros Hb Hi.
  unfold Py.slice, Py.clamp.
  set (n := Z.of_nat (length arr)).
  assert (Hpos : (0 <= Z.of_nat i * b)%Z) by nia.
  assert (Hlt : (Z.of_nat i * b < n)%Z) by (unfold n; nia).
  destruct (Z.ltb_spec (0 + Z.of_nat i * b) 0); [lia|].
  destruct (Z.ltb_spec (0 + Z.of_nat i * b + b) 0); [lia|].
  replace (Z.to_nat (Z.min (0 + Z.of_nat i * b) n)) with (i * Z.to_nat b)
    by nia.
  destruct (Z.le_ge_cases (0 + Z.of_nat i * b + b) n) as [Hle | Hge].
  - f_equal. lia.
  - rewrite Z.min_r by lia.
    rewrite (firstn_all2 (n := Z.to_nat b)).
    + apply firstn_all2. rewrite length_skipn. unfold n. nia.
    + rewrite length_skipn. unfold n in *. nia.
Qed.

End Chunks.

Lemma range_len_ceil (n b : Z) :
  (0 <= n)%Z -> (1 <= b)%Z ->
  Py.range_len 0 n b = Py.ceil_div n b.
Proof.
  intros Hn Hb. unfold Py.range_len, Py.ceil_div.
  destruct (Z.ltb_spec 0 b); [|lia].
  pose proof (Z.div_mod (- n) b ltac:(lia)) as E1.
  pose proof (Z.mod_pos_bound (- n) b ltac:(lia)) as B1.
  destruct (Z.ltb_spec 0 n).
  - pose proof (Z.div_mod (n - 0 - 1) b ltac:(lia)) as E2.
    pose proof (Z.mod_pos_bound (n - 0 - 1) b ltac:(lia)) as B2.
    nia.
  - assert (n = 0)%Z by lia. subst n. reflexivity.
Qed.

(** [ceil_div n b] is the least [k] with [n <= k * b]. *)
Lemma ceil_div_spec (n b : Z) :
  (1 <= b)%Z ->
  ((Py.ceil_div n b - 1) * b < n <= Py.ceil_div n b * b)%Z.
Proof.
  intros Hb. unfold Py.ceil_div.
  pose proof (Z.div_mod (- n) b ltac:(lia)) as E1.
  pose proof (Z.mod_pos_bound (- n) b ltac:(lia)) as B1.
  nia.
Qed.

Section ToBatches.

Variables Item Vec S : Type.

Local Abbreviation wrapper := (FunctionWrapper.t Item Vec S).

Lemma chunker_chunks (self : wrapper) (arr : list Item) (b : Z) :
  FunctionWrapper._batch_size self = Some b ->
  (1 <= b)%Z ->
  FunctionWrapper._chunker self arr
  = Ok (map (fun i => firstn (Z.to_nat b) (skipn (i * Z.to_nat b) arr))
            (seq 0 (Z.to_nat (Py.ceil_div (Z.of_nat (length arr)) b)))).
Proof.
  intros Hbs Hb. unfold FunctionWrapper._chunker. rewrite Hbs.
  unfold Py.range. destruct (Z.eqb_spec b 0); [lia|]. cbn [rbind].
  rewrite range_len_ceil by lia.
  rewrite map_map. f_equal. apply map_ext_in.
  intros i Hi. apply in_seq in Hi.
  apply slice_chunk; [lia|].
  pose proof (ceil_div_spec (Z.of_nat (length arr)) ltac:(eassumption)).
  nia.
Qed.

Lemma to_batches_chunker (self : wrapper) (arr : list Item) (b : Z) :
  FunctionWrapper._batch_size self = Some b ->
  b <> 0%Z ->
  FunctionWrapper.to_batches self arr = FunctionWrapper._chunker self arr.
Proof.
  intros Hbs Hb. unfold FunctionWrapper.to_batches.
  destruct (FunctionWrapper._progress self); [|reflexivity].
  unfold FunctionWrapper.progress_total. rewrite Hbs.
  destruct (Z.eqb_spec b 0); [contradiction|reflexivity].
Qed.

Lemma to_batches_concat (self : wrapper) (arr : list Item) (b : Z) :
  FunctionWrapper._batch_size self = Some b ->
  (1 <= b)%Z ->
  exists batches : list (list Item),
    FunctionWrapper.to_batches self arr = Ok batches
    /\ concat batches = arr.
Proof.
  intros Hbs Hb.
  pose proof (ceil_div_spec (Z.of_nat (length arr)) Hb) as Hk.
  eexists. split.
  - rewrite (to_batches_chunker self arr Hbs) by lia.
    apply (chunker_chunks self arr Hbs Hb).
  - apply concat_chunks. nia.
Qed.

(** C2. For a batch size [b >= 1], [to_batches] yields the chunks of
    [arr] found at offsets [0, b, 2b, ...]: contiguous, disjoint, in the
    original order, and their concatenation is [arr]; every batch but
    the last has exactly [b] items, no batch is empty or longer than
    [b], and there are [ceil(len(arr) / b)] batches. *)
Theorem to_batches_partition (self : wrapper) (arr : list Item) (b : Z) :
  FunctionWrapper._batch_size self = Some b ->
  (1 <= b)%Z ->
  exists batches : list (list Item),
    FunctionWrapper.to_batches self arr = Ok batches
    /\ concat batches = arr
    /\ Z.of_nat (length batches) = Py.ceil_div (Z.of_nat (length arr)) b
    /\ (forall i, i < length batches ->
          nth i batches []
          = firstn (Z.to_nat b) (skipn (i * Z.to_nat b) arr))
    /\ (forall i, Datatypes.S i < length batches ->
          length (nth i batches []) = Z.to_nat b)
    /\ (forall c, In c batches -> 1 <= length c <= Z.to_nat b).
Proof.
  intros Hbs Hb.
  pose proof (ceil_div_spec (Z.of_nat (length arr)) Hb) as Hk.
  set (k := Z.to_nat (Py.ceil_div (Z.of_nat (length arr)) b)) in *.
  assert (Hk0 : (0 <= Py.ceil_div (Z.of_nat (length arr)) b)%Z) by nia.
  set (chunk := fun i => firstn (Z.to_nat b) (skipn (i * Z.to_nat b) arr)).
  assert (Hnth : forall i, i < k -> nth i (map chunk (seq 0 k)) [] = chunk i).
  { intros i Hi.
    rewrite (nth_indep _ [] (chunk 0)) by (rewrite length_map, length_seq; lia).
    rewrite (map_nth chunk), seq_nth; [reflexivity | lia]. }
  exists (map chunk (seq 0 k)).
  rewrite (to_batches_chunker self arr Hbs) by lia.
  rewrite (chunker_chunks self arr Hbs Hb). fold k. fold chunk.
  rewrite length_map, length_seq.
  split; [reflexivity|].
  split; [apply concat_chunks; nia|].
  split; [lia|].
  split; [exact Hnth|].
  split.
  - intros i Hi. rewrite Hnth by lia. unfold chunk.
    rewrite length_firstn, length_skipn. nia.
  - intros c Hc. apply in_map_iff in Hc. destruct Hc as (i & <- & Hi).
    apply in_seq in Hi. unfold chunk.
    rewrite length_firstn, length_skipn. nia.
Qed.

(** C5, as stated, does not hold: the builder call accepts a batch size of
    zero and returns the pipeline; the error only shows when the batches are
    produced. *)
Lemma batch_size_zero_accepted :
  exists self' : FunctionWrapper.t nat nat unit,
    FunctionWrapper.batch_size
      (FunctionWrapper.__init__ (fun xs s => (Ok xs, s))) 0 = Ok self'
    /\ FunctionWrapper._batch_size self' = Some 0%Z
    /\ FunctionWrapper.to_batches self' [10; 20; 30]
       = Err (ValueError "range() arg 3 must not be zero").
Proof.
  eexists. split; [reflexivity|]. split; reflexivity.
Qed.

(** C5, amended. [batch_size] validates nothing: for every [b] it stores [b]
    and returns the pipeline.  With [b = 0] the error is raised when
    [to_batches] is first advanced (by [range], or by the division that
    computes the progress total); with [b < 0] no error is raised at all
    and [to_batches] yields no batch. *)
Theorem batch_size_unchecked (self : wrapper) (b : Z) (arr : list Item) :
  exists self' : wrapper,
    FunctionWrapper.batch_size self b = Ok self'
    /\ FunctionWrapper._batch_size self' = Some b
    /\ (b = 0%Z ->
        FunctionWrapper.to_batches self' arr
        = Err (if FunctionWrapper._progress self
               then ZeroDivisionError "division by zero"
               else ValueError "range() arg 3 must not be zero"))
    /\ ((b < 0)%Z -> FunctionWrapper.to_batches self' arr = Ok []).
Proof.
  eexists. split; [reflexivity|]. split; [reflexivity|]. split.
  - intros ->. unfold FunctionWrapper.to_batches. cbn.
    destruct (FunctionWrapper._progress self); reflexivity.
  - intros Hb.
    rewrite (@to_batches_chunker _ arr b) by (cbn; lia || reflexivity).
    unfold FunctionWrapper._chunker, Py.range, Py.range_len. cbn.
    destruct (Z.eqb_spec b 0); [lia|].
    destruct (Z.ltb_spec 0 b); [lia|].
    destruct (Z.ltb_spec (Z.of_nat (length arr)) 0); [lia|].
    reflexivity.
Qed.

End ToBatches.

(** The statement of C2 on five items in batches of two, with progress. *)
Lemma to_batches_partition_witness :
  exists batches : list (list nat),
    FunctionWrapper.to_batches sample_wrapper [10; 20; 30; 40; 50] = Ok batches
    /\ concat batches = [10; 20; 30; 40; 50]
    /\ Z.of_nat (length batches) = Py.ceil_div 5 2
    /\ (forall i, i < length batches ->
          nth i batches [] = firstn 2 (skipn (i * 2) [10; 20; 30; 40; 50]))
    /\ (forall i, Datatypes.S i < length batches ->
          length (nth i batches []) = 2)
    /\ (forall c, In c batches -> 1 <= length c <= 2).
Proof.
  apply (@to_batches_partition nat nat unit sample_wrapper
           [10; 20; 30; 40; 50] 2%Z); [reflexivity | lia].
Defined.

End BatcherFacts.

(** ** The pipeline: FunctionWrapper.__call__ *)

Module PipelineFacts.

Local Open Scope nat_scope.

Section Call.

Variables Item Vec S : Type.

Local Abbreviation wrapper := (FunctionWrapper.t Item Vec S).

Lemma follows_direct (f : list Item -> S -> result (list Vec) * S) :
  follows (fun c => lift_user (f (FunctionWrapper.tolist c))) f.
Proof.
  intros c w embs s1 Hf. unfold lift_user, FunctionWrapper.tolist.
  rewrite Hf. eexists. split; reflexivity.
Qed.

Lemma attempts_first_try (A : Type) kw (f : M S A) more wait w a w1 :
  f w = (Ok a, w1) ->
  RetryPkg.attempts kw f more wait w = (Ok a, w1).
Proof.
  intros Hf. destruct more; cbn; unfold bind, try_; rewrite Hf; reflexivity.
Qed.

Lemma follows_retry kw (f : list Item -> S -> result (list Vec) * S) :
  follows (fun c => RetryPkg.retry kw (lift_user (f (FunctionWrapper.tolist c)))) f.
Proof.
  intros c w embs s1 Hf.
  destruct (@follows_direct f c w embs s1 Hf) as (w1 & Hrun & Hu).
  exists w1. split; [|exact Hu].
  unfold RetryPkg.retry. apply attempts_first_try. exact Hrun.
Qed.

Lemma follows_limiter kw embed_func (f : list Item -> S -> result (list Vec) * S) :
  follows embed_func f -> follows (RateLimiterPkg.limiter kw embed_func) f.
Proof.
  intros H c w embs s1 Hf.
  unfold RateLimiterPkg.limiter, RateLimiterPkg.acquire, bind.
  apply (H c (set_throttled _ w)). exact Hf.
Qed.

(** The function each batch goes through, and the world the batches are
    processed in, once the configuration has been read. *)
Lemma call_shape (self : wrapper) (text : list Item) (w : world S) :
  exists embed_func w0,
    follows embed_func (FunctionWrapper.func self)
    /\ user w0 = user w
    /\ FunctionWrapper.__call__ self text w
       = bind (lift_result (FunctionWrapper.to_batches self text))
              (FunctionWrapper.comprehension embed_func) w0.
Proof.
  unfold FunctionWrapper.__call__.
  destruct (FunctionWrapper.rate_limiter_kwargs self) as [rl|];
    destruct (FunctionWrapper.retry_kwargs self) as [kw|].
  - unfold bind at 1 2. unfold sys_version_info_minor.
    destruct (11 <=? version_minor w)%Z; cbn.
    + eexists _, _. split; [apply follows_retry|]. split; [|reflexivity]. reflexivity.
    + eexists _, _. split; [apply follows_limiter, follows_retry|].
      split; reflexivity.
  - unfold bind at 1 2. unfold sys_version_info_minor.
    destruct (11 <=? version_minor w)%Z; cbn.
    + eexists _, _. split; [apply follows_direct|]. split; [|reflexivity]. reflexivity.
    + eexists _, _. split; [apply follows_limiter, follows_direct|].
      split; reflexivity.
  - eexists _, _. split; [apply follows_retry|]. split; reflexivity.
  - eexists _, _. split; [apply follows_direct|]. split; reflexivity.
Qed.

Lemma comprehension_follows embed_func (f : list Item -> S -> result (list Vec) * S) :
  follows embed_func f ->
  (forall xs s, exists vs s', f xs s = (Ok vs, s') /\ length vs = length xs) ->
  forall batches w,
  exists results w',
    batch_results f batches (user w) results (user w')
    /\ Forall2 (fun c embs => length embs = length c) batches results
    /\ FunctionWrapper.comprehension embed_func batches w
       = (Ok (concat results), w').
Proof.
  intros Hfol Hf. induction batches as [|c rest IH]; intros w.
  - exists [], w. repeat split; constructor.
  - destruct (Hf c (user w)) as (embs & s1 & Hc & Hlen).
    destruct (Hfol c w embs s1 Hc) as (w1 & Hrun & Hu). subst s1.
    destruct (IH w1) as (results & w' & Hbr & Hall & Hrest).
    exists (embs :: results), w'. split; [|split].
    + econstructor; eassumption.
    + constructor; assumption.
    + cbn. unfold bind. rewrite Hrun. unfold bind in Hrest. rewrite Hrest.
      reflexivity.
Qed.

Lemma batch_results_map (g : Item -> Vec) (f : list Item -> S -> result (list Vec) * S) :
  (forall xs s, f xs s = (Ok (map g xs), s)) ->
  forall batches s results s',
    batch_results f batches s results s' ->
    concat results = map g (concat batches).
Proof.
  intros Hg batches s results s' H. induction H.
  - reflexivity.
  - rewrite Hg in H. inversion H; subst. cbn. rewrite map_app. f_equal.
    assumption.
Qed.

Lemma Forall2_length_concat (batches : list (list Item)) (results : list (list Vec)) :
  Forall2 (fun c embs => length embs = length c) batches results ->
  length (concat results) = length (concat batches).
Proof.
  induction 1; cbn; [reflexivity|]. rewrite !length_app. lia.
Qed.

Lemma call_concat_results (self : wrapper) (text : list Item) (b : Z)
      (w : world S) :
  FunctionWrapper._batch_size self = Some b ->
  (1 <= b)%Z ->
  (forall xs s, exists vs s',
      FunctionWrapper.func self xs s = (Ok vs, s') /\ length vs = length xs) ->
  exists batches results w',
    FunctionWrapper.to_batches self text = Ok batches
    /\ concat batches = text
    /\ batch_results (FunctionWrapper.func self) batches (user w) results (user w')
    /\ Forall2 (fun c embs => length embs = length c) batches results
    /\ FunctionWrapper.__call__ self text w = (Ok (concat results), w').
Proof.
  intros Hbs Hb Hf.
  destruct (BatcherFacts.to_batches_concat self text Hbs Hb)
    as (batches & Hbat & Hcat).
  destruct (call_shape self text w) as (embed_func & w0 & Hfol & Hu & Hcall).
  destruct (comprehension_follows Hfol Hf batches w0)
    as (results & w' & Hbr & Hall & Hrun).
  exists batches, results, w'. rewrite <- Hu.
  split; [exact Hbat|]. split; [exact Hcat|]. split; [exact Hbr|].
  split; [exact Hall|].
  rewrite Hcall. unfold bind, lift_result. rewrite Hbat. exact Hrun.
Qed.

(** C1. With a batch size [b >= 1] and a function that returns as many
    vectors as it is given items, the pipeline returns the results of the
    batches concatenated in the order of the batches: the batches
    concatenate to the input, the function is called on each batch in turn,
    each result is as long as its batch, the output is as long as the input
    and, for a function that maps its items one by one, the output is the
    input mapped item by item.  This holds whichever of retry, rate limiting
    and progress are configured. *)
Theorem call_flat_in_order (self : wrapper) (text : list Item) (b : Z)
        (w : world S) :
  FunctionWrapper._batch_size self = Some b ->
  (1 <= b)%Z ->
  (forall xs s, exists vs s',
      FunctionWrapper.func self xs s = (Ok vs, s') /\ length vs = length xs) ->
  exists batches results w',
    FunctionWrapper.to_batches self text = Ok batches
    /\ concat batches = text
    /\ batch_results (FunctionWrapper.func self) batches (user w) results (user w')
    /\ Forall2 (fun c embs => length embs = length c) batches results
    /\ FunctionWrapper.__call__ self text w = (Ok (concat results), w')
    /\ length (concat results) = length text
    /\ (forall g : Item -> Vec,
          (forall xs s, FunctionWrapper.func self xs s = (Ok (map g xs), s)) ->
          concat results = map g text).
Proof.
  intros Hbs Hb Hf.
  destruct (call_concat_results self text w Hbs Hb Hf)
    as (batches & results & w' & Hbat & Hcat & Hbr & Hall & Hcall).
  exists batches, results, w'.
  split; [exact Hbat|]. split; [exact Hcat|]. split; [exact Hbr|].
  split; [exact Hall|]. split; [exact Hcall|]. split.
  - rewrite (Forall2_length_concat Hall), Hcat. reflexivity.
  - intros g Hg. rewrite (batch_results_map g Hg Hbr), Hcat. reflexivity.
Qed.

(** *** Rate limiting that is not available *)

















(** *** The retry policy *)









End Call.

Section RetryPolicy.

Variables Item Vec S A : Type.


End RetryPolicy.

(** The statement of C1 on a pipeline with retry and rate limiter, five
    items and batches of two. *)
Lemma call_flat_in_order_witness :
  exists batches results w',
    FunctionWrapper.to_batches sample_pipeline [1; 2; 3; 4; 5] = Ok batches
    /\ concat batches = [1; 2; 3; 4; 5]
    /\ batch_results (FunctionWrapper.func sample_pipeline) batches
         (user (sample_world 0 10)) results (user w')
    /\ Forall2 (fun c embs => length embs = length c) batches results
    /\ FunctionWrapper.__call__ sample_pipeline [1; 2; 3; 4; 5] (sample_world 0 10)
       = (Ok (concat results), w')
    /\ length (concat results) = length [1; 2; 3; 4; 5]
    /\ (forall g : nat -> nat,
          (forall xs s,
              FunctionWrapper.func sample_pipeline xs s = (Ok (map g xs), s)) ->
          concat results = map g [1; 2; 3; 4; 5]).
Proof.
  apply (@call_flat_in_order nat nat nat sample_pipeline [1; 2; 3; 4; 5] 2%Z
           (sample_world 0 10)).
  - reflexivity.
  - lia.
  - intros xs s. exists (map (fun x => 2 * x) xs), (Datatypes.S s).
    split; [reflexivity | apply length_map].
Defined.


(** The budget of attempts is per batch: with three attempts allowed, a
    function that fails twice on every batch makes four failures over two
    batches, and the call returns after six invocations. *)
Example retry_budget_per_batch :
  exists w',
    FunctionWrapper.__call__ flaky_pipeline [1; 2; 3; 4] (sample_world 0 10)
    = (Ok [1; 2; 3; 4], w')
    /\ user w' = 6.
Proof.
  eexists. split; vm_compute; reflexivity.
Qed.

End PipelineFacts.

(** ** retry_with_exponential_backoff *)

Module BackoffFacts.

Section Loop.

Variables S A : Type.
Variable f : S -> result A * S.
Variable initial_delay : Q.
Variable exponential_base : Q.
Variable jitter : bool.
Variable max_retries : Z.

Local Abbreviation loop :=
  (wrapper_loop (lift_user f) exponential_base jitter max_retries).

Lemma jitter_factor_ge_1 (x : Q) :
  0 <= x -> 1 <= 1 + Py.float_of_bool jitter * x.
Proof.
  intros Hx. destruct jitter; cbn [Py.float_of_bool]; lra.
Qed.

(** One pass through the [except] clause when the new delay can be slept. *)
Lemma back_off_sleeps (delay : Q) (e : exn) (w : world S) :
  let d := delay * (exponential_base
                    * (1 + Py.float_of_bool jitter * random_src w (random_ix w))) in
  sleepable (sleep_max w) d ->
  back_off exponential_base jitter delay e w
  = (Ok d,
     set_slept (slept w ++ [d])
       (set_log (log w ++ [Retrying d e])
          (set_random_ix (Datatypes.S (random_ix w)) w))).
Proof.
  intros d [Hd Hmax]. unfold back_off, bind, random, logger_info, time_sleep. cbn.
  fold d.
  assert (Hlow : - sleep_max w <= d) by lra.
  apply Qle_bool_iff in Hd, Hmax, Hlow. rewrite Hd, Hmax, Hlow. reflexivity.
Qed.

(** One pass through the [except] clause when the new delay cannot be
    slept: the exception of [time.sleep] leaves the wrapper, after the draw
    and the log record. *)
Lemma back_off_refused (delay : Q) (e : exn) (w : world S) :
  let d := delay * (exponential_base
                    * (1 + Py.float_of_bool jitter * random_src w (random_ix w))) in
  ~ sleepable (sleep_max w) d ->
  exists e',
    back_off exponential_base jitter delay e w
    = (Err e',
       set_log (log w ++ [Retrying d e])
         (set_random_ix (Datatypes.S (random_ix w)) w)).
Proof.
  intros d Hd. unfold back_off, bind, random, logger_info, time_sleep. cbn.
  fold d.
  destruct (Qle_bool (- sleep_max w) d && Qle_bool d (sleep_max w)) eqn:Er;
    cbn [negb]; [|eexists; reflexivity].
  destruct (Qle_bool 0 d) eqn:E0; cbn [negb]; [|eexists; reflexivity].
  exfalso. apply Hd. apply andb_true_iff in Er. destruct Er as [_ Er].
  apply Qle_bool_iff in Er, E0. split; assumption.
Qed.

(** A negative delay within the range of the clock is refused with
    [ValueError]. *)
Lemma back_off_negative (delay : Q) (e : exn) (w : world S) :
  let d := delay * (exponential_base
                    * (1 + Py.float_of_bool jitter * random_src w (random_ix w))) in
  - sleep_max w <= d -> d < 0 ->
  back_off exponential_base jitter delay e w
  = (Err (ValueError "sleep length must be non-negative"),
     set_log (log w ++ [Retrying d e])
       (set_random_ix (Datatypes.S (random_ix w)) w)).
Proof.
  intros d Hlow Hd. unfold back_off, bind, random, logger_info, time_sleep. cbn.
  fold d.
  assert (Hmax : d <= sleep_max w) by lra.
  apply Qle_bool_iff in Hlow, Hmax. rewrite Hlow, Hmax. cbn [andb negb].
  destruct (Qle_bool 0 d) eqn:E; [|reflexivity].
  apply Qle_bool_iff in E. lra.
Qed.

(** A delay beyond the range of the clock is refused with [OverflowError]. *)
Lemma back_off_too_long (delay : Q) (e : exn) (w : world S) :
  let d := delay * (exponential_base
                    * (1 + Py.float_of_bool jitter * random_src w (random_ix w))) in
  sleep_max w < d ->
  back_off exponential_base jitter delay e w
  = (Err (OverflowError "timestamp too large to convert to C _PyTime_t"),
     set_log (log w ++ [Retrying d e])
       (set_random_ix (Datatypes.S (random_ix w)) w)).
Proof.
  intros d Hd. unfold back_off, bind, random, logger_info, time_sleep. cbn.
  fold d.
  destruct (Qle_bool d (sleep_max w)) eqn:E.
  - apply Qle_bool_iff in E. lra.
  - rewrite andb_false_r. reflexivity.
Qed.

Lemma sleepable_dec (limit d : Q) :
  {sleepable limit d} + {~ sleepable limit d}.
Proof.
  unfold sleepable.
  destruct (Qlt_le_dec d 0) as [Hneg | Hpos]; [right; lra|].
  destruct (Qlt_le_dec limit d) as [Hbig | Hfit]; [right; lra|].
  left. split; assumption.
Qed.

(** The loop ends: with more fuel than retries allowed, it returns or
    raises, whatever the function and the delays. *)
Lemma loop_total :
  forall n fuel k0 d w,
    (n < fuel)%nat ->
    (max_retries - k0 <= Z.of_nat n)%Z ->
    exists out, loop fuel k0 d w = Some out.
Proof.
  induction n as [|n IH]; intros fuel k0 d w Hfuel Hk;
    (destruct fuel as [|fuel]; [lia|]);
    cbn [wrapper_loop]; unfold lift_user at 1;
    destruct (f (user w)) as [[a|e] s1]; try (eexists; reflexivity).
  - destruct (Z.ltb_spec max_retries (k0 + 1)); [|lia]. eexists; reflexivity.
  - destruct (Z.ltb_spec max_retries (k0 + 1)); [eexists; reflexivity|].
    destruct (back_off exponential_base jitter d e (set_user s1 w))
      as [[d1|e1] w2]; [|eexists; reflexivity].
    apply IH; lia.
Qed.

End Loop.

Section Delays.

Variable exponential_base : Q.
Variable jitter : bool.

Local Abbreviation delay_after := (jittered_delay exponential_base jitter).

Lemma jittered_delay_ext (draws draws' : nat -> Q) :
  (forall i, draws i = draws' i) ->
  forall n d, delay_after draws d n = delay_after draws' d n.
Proof.
  intros H n. revert draws draws' H.
  induction n as [|n IH]; intros draws draws' H d; cbn; [reflexivity|].
  rewrite (H O). apply IH. intros i. apply H.
Qed.

Lemma jittered_delay_S (draws : nat -> Q) (d : Q) (n : nat) :
  delay_after draws d (Datatypes.S n)
  = delay_after (fun i => draws (Datatypes.S i))
      (d * (exponential_base * (1 + Py.float_of_bool jitter * draws O))) n.
Proof. reflexivity. Qed.

(** The update of the delay, in the form [delay * base * (1 + jitter * x)]. *)
Lemma jittered_delay_step (n : nat) :
  forall draws d,
    delay_after draws d (Datatypes.S n)
    == delay_after draws d n * exponential_base
       * (1 + Py.float_of_bool jitter * draws n).
Proof.
  induction n as [|n IH]; intros draws d.
  - cbn. ring.
  - change (delay_after draws d (Datatypes.S (Datatypes.S n)))
      with (delay_after (fun i => draws (Datatypes.S i))
              (d * (exponential_base * (1 + Py.float_of_bool jitter * draws O)))
              (Datatypes.S n)).
    rewrite IH. reflexivity.
Qed.

Lemma Qpower_succ_nat (a : Q) (n : nat) :
  a ^ Z.of_nat (Datatypes.S n) == a * a ^ Z.of_nat n.
Proof.
  rewrite Nat2Z.inj_succ.
  replace (Z.succ (Z.of_nat n)) with (1 + Z.of_nat n)%Z by lia.
  rewrite Qpower_plus' by lia. rewrite Qpower_1_r. reflexivity.
Qed.



End Delays.

Section SleptDelays.

Variables S A : Type.
Variable f : S -> result A * S.
Variable exponential_base : Q.
Variable jitter : bool.
Variable max_retries : Z.

Lemma loop_slept :
  forall fuel k0 d w res w',
    wrapper_loop (lift_user f) exponential_base jitter max_retries fuel k0 d w
    = Some (res, w') ->
    exists delays,
      slept w' = slept w ++ delays
      /\ (forall n x,
            nth_error delays n = Some x ->
            0 <= x
            /\ x = jittered_delay exponential_base jitter
                     (fun i => random_src w (random_ix w + i)%nat) d
                     (Datatypes.S n)).
Proof.
  induction fuel as [|fuel IH]; intros k0 d w res w' Hrun; [discriminate|].
  cbn [wrapper_loop] in Hrun. unfold lift_user at 1 in Hrun.
  destruct (f (user w)) as [[a|e] s1].
  - inversion Hrun; subst. exists []. rewrite app_nil_r.
    split; [reflexivity|]. intros [|n] x; discriminate.
  - destruct (max_retries <? k0 + 1)%Z.
    + inversion Hrun; subst. exists []. rewrite app_nil_r.
      split; [reflexivity|]. intros [|n] x; discriminate.
    + set (w1 := set_user s1 w) in *.
      set (d1 := d * (exponential_base
                      * (1 + Py.float_of_bool jitter
                             * random_src w1 (random_ix w1)))).
      destruct (sleepable_dec (sleep_max w1) d1) as [Hfit | Hnot].
      * pose proof Hfit as [Hpos _].
        rewrite (@back_off_sleeps _ exponential_base jitter d e w1 Hfit) in Hrun.
        apply IH in Hrun. destruct Hrun as (delays & Hs & Hd).
        cbn [slept random_src random_ix set_slept set_log set_random_ix] in Hs, Hd.
        fold d1 in Hs, Hd.
        exists (d1 :: delays). split.
        { rewrite Hs. rewrite <- app_assoc. reflexivity. }
        intros [|n] x Hx.
        { inversion Hx; subst x. split; [exact Hpos|].
          rewrite jittered_delay_S. cbn [jittered_delay].
          rewrite Nat.add_0_r. reflexivity. }
        { destruct (Hd n x Hx) as [H0 Hx']. split; [exact H0|].
          rewrite Hx'.
          rewrite (jittered_delay_S exponential_base jitter
                     (fun i => random_src w (random_ix w + i)%nat) d).
          rewrite Nat.add_0_r. fold d1.
          apply jittered_delay_ext. intros i. unfold w1.
          cbn [random_src random_ix set_user]. f_equal. lia. }
      * destruct (@back_off_refused _ exponential_base jitter d e w1 Hnot)
          as [e' Hstop].
        rewrite Hstop in Hrun.
        inversion Hrun; subst. exists []. rewrite app_nil_r.
        split; [reflexivity|]. intros [|n] x; discriminate.
Qed.


End SleptDelays.


(** With the default configuration and every draw equal to one half, the
    delays slept are [3] and [9] seconds, above the bounds [2] and [4]. *)
Example slept_delays_sample :
  Forall2 Qeq (slept sample_backoff_end) [3; 9].
Proof.
  repeat constructor.
Qed.

Section Runs.

Variables S A : Type.
Variable f : S -> result A * S.
Variable exponential_base : Q.
Variable jitter : bool.
Variable max_retries : Z.

Local Abbreviation loop :=
  (wrapper_loop (lift_user f) exponential_base jitter max_retries).

Local Abbreviation delay_after := (jittered_delay exponential_base jitter).




End Runs.

Section Retries.

Variables S A : Type.


End Retries.


(** The message of the terminal error names the retry count. *)
Example exceeded_message_3 :
  exceeded_message 3 = "Maximum number of retries (3) exceeded."%string.
Proof. reflexivity. Qed.

(** Three retries around a function that always raises: four invocations,
    three sleeps, then the terminal error. *)
Example backoff_gives_up_after_4 :
  exists w',
    wrapper (lift_user (counted always_fails)) 1 2 true 3 4
            (sample_world (tt, O) 10)
    = Some (Err (Exception_ "Maximum number of retries (3) exceeded."
                            (UserError 7)), w')
    /\ snd (user w') = 4%nat
    /\ length (slept w') = 3%nat.
Proof.
  eexists. split; [vm_compute; reflexivity|]. split; reflexivity.
Qed.


(** Nor does it hold for every non-negative delay: with an initial delay of
    five thousand million seconds, base two and one retry allowed, the first
    delay computed is beyond the range of the clock of [time.sleep], so the
    function is invoked once and the error raised is the [OverflowError] of
    the sleep. *)
Example overlong_delay_stops_retrying :
  exists w',
    wrapper (lift_user (counted always_fails)) 5000000000 2 false 1 5
            (sample_world (tt, O) 10)
    = Some (Err (OverflowError "timestamp too large to convert to C _PyTime_t"),
            w')
    /\ snd (user w') = 1%nat
    /\ slept w' = [].
Proof.
  eexists. split; [vm_compute; reflexivity|]. split; reflexivity.
Qed.

End BackoffFacts.

(** ** weak_lru *)

Module WeakLruFacts.

Import WeakLru.

Local Open Scope nat_scope.

Section Keys.

Variable heap : addr -> object.
Variable maxsize : Z.
Variable func : addr -> list value -> value.

Lemma mem_In (a : addr) (l : list addr) : mem a l = true <-> In a l.
Proof.
  unfold mem. rewrite existsb_exists. split.
  - intros (x & Hx & E). apply Nat.eqb_eq in E. subst. exact Hx.
  - intros H. exists a. split; [exact H | apply Nat.eqb_refl].
Qed.

Lemma obj_eqb_spec (a b : addr) :
  obj_eqb heap a b = true
  <-> a = b
      \/ (kind (heap a) = ByValue /\ kind (heap b) = ByValue
          /\ payload (heap a) = payload (heap b)).
Proof.
  unfold obj_eqb. rewrite orb_true_iff, Nat.eqb_eq.
  destruct (kind (heap a)), (kind (heap b)); rewrite ?Z.eqb_eq;
    intuition congruence.
Qed.

(** The first call on an empty cache stores one entry. *)
Lemma inner_first_call (st : state) (a : addr) (xs : list value) :
  cache st = [] ->
  (1 <= maxsize)%Z ->
  inner heap maxsize func st a xs
  = (func a xs,
     State (roots st) [((WeakRef a, xs), func a xs)]
           (invocations st ++ [(a, xs)])).
Proof.
  intros Hc Hm. unfold inner, _func. rewrite Hc.
  destruct (Z.leb_spec maxsize 0); [lia|]. cbn [lookup fst snd referent].
  destruct (Z.to_nat maxsize) as [|n] eqn:E; [lia|].
  cbn [firstn]. rewrite firstn_nil. reflexivity.
Qed.

(** C6, amended.  The key of an entry is the weak reference to the receiver
    with the arguments, and weak references to live objects compare as
    their referents do, with [==].  So a call hits the entry of an earlier
    call exactly when the arguments are equal and the receivers are equal
    with [==]: the same object, or two objects of a class that compares by
    value and finds them equal.  On a hit the method is invoked once in
    total and the second call returns the result computed for the first
    receiver; otherwise it is invoked once for each call. *)
Theorem cache_key_equality (st : state) (a b : addr) (xs ys : list value) :
  cache st = [] ->
  (1 <= maxsize)%Z ->
  mem a (roots st) = true ->
  mem b (roots st) = true ->
  let st1 := snd (inner heap maxsize func st a xs) in
  let second := inner heap maxsize func st1 b ys in
  (forall live : addr -> bool,
      live a = true -> live b = true ->
      key_eqb heap live (WeakRef a, xs) (WeakRef b, ys)
      = obj_eqb heap a b && args_eqb heap xs ys)
  /\ (obj_eqb heap a b = true
      <-> a = b
          \/ (kind (heap a) = ByValue /\ kind (heap b) = ByValue
              /\ payload (heap a) = payload (heap b)))
  /\ (obj_eqb heap a b && args_eqb heap xs ys = true ->
      invocations (snd second) = invocations st ++ [(a, xs)]
      /\ fst second = func a xs)
  /\ (obj_eqb heap a b && args_eqb heap xs ys = false ->
      invocations (snd second) = invocations st ++ [(a, xs); (b, ys)]
      /\ fst second = func b ys).
Proof.
  intros Hc Hm Ha Hb st1 second. subst second st1.
  rewrite (inner_first_call st a xs Hc Hm). cbn [snd].
  set (st1 := State (roots st) [((WeakRef a, xs), func a xs)]
                    (invocations st ++ [(a, xs)])).
  assert (Hlive : forall live : addr -> bool,
             live a = true -> live b = true ->
             key_eqb heap live (WeakRef a, xs) (WeakRef b, ys)
             = obj_eqb heap a b && args_eqb heap xs ys).
  { intros live La Lb. unfold key_eqb, weakref_eqb. cbn [fst snd referent].
    rewrite La, Lb. reflexivity. }
  assert (Hkey : key_eqb heap (alive_in_call st1 b ys) (WeakRef a, xs)
                   (WeakRef b, ys)
                 = obj_eqb heap a b && args_eqb heap xs ys).
  { apply Hlive; unfold alive_in_call, alive; cbn [roots st1].
    - rewrite Ha, !orb_true_r. reflexivity.
    - rewrite Nat.eqb_refl. reflexivity. }
  split; [exact Hlive|]. split; [apply obj_eqb_spec|].
  unfold inner, _func.
  destruct (Z.leb_spec maxsize 0); [lia|].
  cbn [cache st1 lookup referent fst snd]. fold st1. rewrite Hkey.
  split; intros E; rewrite E; cbn [fst snd invocations roots st1].
  - split; reflexivity.
  - split; [|reflexivity]. rewrite <- app_assoc. reflexivity.
Qed.

End Keys.

(** The statement of C6, as amended, on two receivers equal by value. *)
Lemma cache_key_equality_witness :
  (forall live : addr -> bool,
      live 0 = true -> live 1 = true ->
      key_eqb sample_heap live (WeakRef 0, [VInt 7]) (WeakRef 1, [VInt 7])
      = obj_eqb sample_heap 0 1 && args_eqb sample_heap [VInt 7] [VInt 7])
  /\ (obj_eqb sample_heap 0 1 = true
      <-> 0 = 1
          \/ (kind (sample_heap 0) = ByValue /\ kind (sample_heap 1) = ByValue
              /\ payload (sample_heap 0) = payload (sample_heap 1)))
  /\ (obj_eqb sample_heap 0 1 && args_eqb sample_heap [VInt 7] [VInt 7] = true ->
      invocations
        (snd (inner sample_heap 128 whoami
                (snd (inner sample_heap 128 whoami (start [0; 1; 2]) 0 [VInt 7]))
                1 [VInt 7]))
      = invocations (start [0; 1; 2]) ++ [(0, [VInt 7])]
      /\ fst (inner sample_heap 128 whoami
                (snd (inner sample_heap 128 whoami (start [0; 1; 2]) 0 [VInt 7]))
                1 [VInt 7])
         = whoami 0 [VInt 7])
  /\ (obj_eqb sample_heap 0 1 && args_eqb sample_heap [VInt 7] [VInt 7] = false ->
      invocations
        (snd (inner sample_heap 128 whoami
                (snd (inner sample_heap 128 whoami (start [0; 1; 2]) 0 [VInt 7]))
                1 [VInt 7]))
      = invocations (start [0; 1; 2]) ++ [(0, [VInt 7]); (1, [VInt 7])]
      /\ fst (inner sample_heap 128 whoami
                (snd (inner sample_heap 128 whoami (start [0; 1; 2]) 0 [VInt 7]))
                1 [VInt 7])
         = whoami 1 [VInt 7]).
Proof.
  apply (@cache_key_equality sample_heap 128 whoami (start [0; 1; 2]) 0 1
           [VInt 7] [VInt 7]); [reflexivity | lia | reflexivity | reflexivity].
Defined.

(** C6, as stated, does not hold: two distinct live receivers that are
    equal by value share one entry.  The method is invoked once in total,
    for the first receiver, and the call on the second receiver returns the
    result computed for the first. *)
Lemma equal_receivers_share_an_entry :
  0 <> 1
  /\ obj_eqb sample_heap 0 1 = true
  /\ invocations
       (run sample_heap 128 whoami [Call 0 [VInt 7]; Call 1 [VInt 7]]
            (start [0; 1]))
     = [(0, [VInt 7])]
  /\ fst (inner sample_heap 128 whoami
            (run sample_heap 128 whoami [Call 0 [VInt 7]] (start [0; 1]))
            1 [VInt 7])
     = VInt 0.
Proof.
  split; [discriminate|]. repeat split; reflexivity.
Qed.

(** Receivers of a class that compares by identity do not share entries. *)
Example identity_receivers_have_their_own_entries :
  invocations
    (run sample_heap 128 whoami [Call 2 [VInt 7]; Call 3 [VInt 7]; Call 2 [VInt 7]]
         (start [2; 3]))
  = [(2, [VInt 7]); (3, [VInt 7])].
Proof. reflexivity. Qed.

Section Ownership.

Variable heap : addr -> object.
Variable maxsize : Z.
Variable func : addr -> list value -> value.
Variable a : addr.

Hypothesis func_returns_no_ref : forall self xs, ~ In a (refs (func self xs)).

Lemma cache_strong_lookup live k c hit rest :
  lookup heap live k c = Some (hit, rest) ->
  forall x, In x (cache_strong (hit :: rest)) -> In x (cache_strong c).
Proof.
  revert hit rest. induction c as [|e c IH]; intros hit rest H x Hx;
    [discriminate|].
  cbn [lookup] in H. destruct (key_eqb heap live (fst e) k).
  - inversion H; subst. exact Hx.
  - destruct (lookup heap live k c) as [[h r]|]; [|discriminate].
    injection H as Hh Hr. subst hit rest.
    specialize (IH h r eq_refl x).
    unfold cache_strong in *. cbn [flat_map] in *.
    rewrite !in_app_iff in *. tauto.
Qed.

Lemma cache_strong_firstn n (c : list entry) :
  forall x, In x (cache_strong (firstn n c)) -> In x (cache_strong c).
Proof.
  intros x. unfold cache_strong. rewrite !in_flat_map.
  intros (e & He & Hx). exists e. split; [|exact Hx].
  rewrite <- (firstn_skipn n c). apply in_or_app. left. exact He.
Qed.

Lemma step_keeps_weak (st : state) (o : op) :
  ~ In a (cache_strong (cache st)) ->
  passes_no_ref a o ->
  ~ In a (cache_strong (cache (step heap maxsize func st o))).
Proof.
  intros Hst Ho. destruct o as [self args | b]; [|exact Hst].
  cbn [step passes_no_ref] in *. unfold inner, _func.
  destruct (maxsize <=? 0)%Z; [exact Hst|].
  destruct (lookup heap _ _ (cache st)) as [[hit rest]|] eqn:E;
    cbn [snd cache].
  - intros H. apply Hst. eapply cache_strong_lookup; eassumption.
  - intros H. apply cache_strong_firstn in H.
    unfold cache_strong in H. cbn [flat_map] in H.
    apply in_app_or in H. destruct H as [H|H]; [|exact (Hst H)].
    unfold entry_strong in H. cbn [fst snd referent] in H.
    apply in_app_or in H. destruct H as [H|H]; [exact (Ho H)|].
    exact (func_returns_no_ref _ _ H).
Qed.

Lemma run_keeps_weak (ops : list op) :
  forall st,
    ~ In a (cache_strong (cache st)) ->
    Forall (passes_no_ref a) ops ->
    ~ In a (cache_strong (cache (run heap maxsize func ops st))).
Proof.
  induction ops as [|o ops IH]; intros st Hst Hops; [exact Hst|].
  inversion Hops; subst. cbn [run fold_left].
  apply IH; [apply step_keeps_weak; assumption | assumption].
Qed.

End Ownership.

(** C10, amended.  The cache refers to the receiver of a cached call only
    through the weak reference in the key; it owns the arguments and the
    results of the cached calls.  So, for a method whose results never
    refer to the object [a] and calls that never pass [a] as an argument,
    whatever the calls and the entries they leave in the cache, [a] is
    alive exactly as long as the program refers to it: once the program
    has dropped it, it is reclaimed. *)
Theorem cache_holds_receiver_weakly
        (heap : addr -> object) (maxsize : Z)
        (func : addr -> list value -> value) (a : addr)
        (ops : list op) (st : state) :
  (forall self xs, ~ In a (refs (func self xs))) ->
  ~ In a (cache_strong (cache st)) ->
  Forall (passes_no_ref a) ops ->
  let st' := run heap maxsize func ops st in
  ~ In a (cache_strong (cache st'))
  /\ alive st' a = mem a (roots st')
  /\ (mem a (roots st') = false -> alive st' a = false).
Proof.
  intros Hfunc Hst Hops st'.
  assert (H : ~ In a (cache_strong (cache st')))
    by (apply run_keeps_weak; assumption).
  assert (E : mem a (cache_strong (cache st')) = false).
  { destruct (mem a (cache_strong (cache st'))) eqn:E; [|reflexivity].
    apply mem_In in E. contradiction. }
  split; [exact H|]. unfold alive. rewrite E, orb_false_r.
  split; [reflexivity | auto].
Qed.

(** The statement of C10, as amended, on a method that returns a number. *)
Lemma cache_holds_receiver_weakly_witness :
  ~ In 2 (cache_strong
            (cache (run sample_heap 128 whoami
                        [Call 2 [VInt 7]; Call 3 [VInt 7]; Del 2] (start [2; 3]))))
  /\ alive (run sample_heap 128 whoami
                [Call 2 [VInt 7]; Call 3 [VInt 7]; Del 2] (start [2; 3])) 2
     = mem 2 (roots (run sample_heap 128 whoami
                         [Call 2 [VInt 7]; Call 3 [VInt 7]; Del 2] (start [2; 3])))
  /\ (mem 2 (roots (run sample_heap 128 whoami
                        [Call 2 [VInt 7]; Call 3 [VInt 7]; Del 2] (start [2; 3])))
      = false ->
      alive (run sample_heap 128 whoami
                 [Call 2 [VInt 7]; Call 3 [VInt 7]; Del 2] (start [2; 3])) 2
      = false).
Proof.
  apply (@cache_holds_receiver_weakly sample_heap 128 whoami 2
           [Call 2 [VInt 7]; Call 3 [VInt 7]; Del 2] (start [2; 3])).
  - intros self xs H. exact H.
  - intros H. exact H.
  - repeat constructor; intros H; exact H.
Defined.

(** An entry outlives its receiver without keeping it alive: after the
    program drops the receiver, the entry keyed by it is still in the cache
    and the receiver is reclaimed. *)
Example entry_of_reclaimed_receiver :
  let st := run sample_heap 128 whoami [Call 2 [VInt 7]; Del 2] (start [2]) in
  cache st = [((WeakRef 2, [VInt 7]), VInt 2)] /\ alive st 2 = false.
Proof. split; reflexivity. Qed.

(** C10, as stated, does not hold for every decorated method: the cache
    owns the results it stores, so a method that returns its receiver keeps
    it alive through its entry after the program has dropped it. *)
Lemma cached_result_keeps_receiver_alive :
  mem 2 (roots (run sample_heap 128 me [Call 2 []; Del 2] (start [2]))) = false
  /\ cache (run sample_heap 128 me [Call 2 []; Del 2] (start [2]))
     = [((WeakRef 2, []), VRef 2)]
  /\ alive (run sample_heap 128 me [Call 2 []; Del 2] (start [2])) 2 = true.
Proof. repeat split; reflexivity. Qed.

End WeakLruFacts.

(** ** with_embeddings *)

Module TableFacts.

Local Open Scope nat_scope.

Section WithEmbeddings.

Variables cell Vec S DataFrame : Type.
Variable from_pandas : DataFrame -> Arrow.Table cell.
Variable vec_to_table : list Vec -> result (Arrow.column cell).

Lemma configured_ok (func : list cell -> S -> result (list Vec) * S)
      (wrap_api show_progress : bool) (batch_size : Z) :
  exists wrapper,
    configured func wrap_api show_progress batch_size = Ok wrapper
    /\ FunctionWrapper.func wrapper = func
    /\ FunctionWrapper._batch_size wrapper = Some batch_size.
Proof.
  destruct wrap_api, show_progress; eexists; repeat split; reflexivity.
Qed.

Lemma append_column_ok (data : Arrow.Table cell) name col t' :
  Arrow.append_column data name col = Ok t' ->
  length col = Arrow.num_rows data /\ t' = data ++ [(name, col)].
Proof.
  unfold Arrow.append_column.
  destruct (Nat.eqb_spec (length col) (Arrow.num_rows data)); [|discriminate].
  intros H. inversion H. split; [assumption | reflexivity].
Qed.

(** C8. [with_embeddings] builds its pipeline around [func] with the batch
    size it is given and, on the table of its input,
    - when it returns, it returns that table with one more column at the
      end, named "vector", which holds the embeddings the pipeline
      returned for the named column, one for each row; the columns of the
      input are all there, unchanged and in their order;
    - when the pipeline returns a number of embeddings that is not the
      number of rows, it raises;
    - when the named column does not exist, it raises the error of the
      lookup;
    - for a batch size of at least [1], a function that returns as many
      vectors as it is given items, an existing column and embeddings that
      make a vector column, it does return. *)
Theorem with_embeddings_appends_vector
        (func : list cell -> S -> result (list Vec) * S)
        (data : DATA cell DataFrame) (column : string)
        (wrap_api show_progress : bool) (batch_size : Z) (w : world S) :
  (forall es col, vec_to_table es = Ok col -> length col = length es) ->
  let table := table_of from_pandas data in
  let run := with_embeddings from_pandas vec_to_table func data column
               wrap_api show_progress batch_size w in
  exists wrapper,
    configured func wrap_api show_progress batch_size = Ok wrapper
    /\ FunctionWrapper.func wrapper = func
    /\ FunctionWrapper._batch_size wrapper = Some batch_size
    /\ (forall t' w',
          run = (Ok t', w') ->
          exists col es vector,
            Arrow.getitem table column = Ok col
            /\ FunctionWrapper.__call__ wrapper col w = (Ok es, w')
            /\ vec_to_table es = Ok vector
            /\ length es = Arrow.num_rows table
            /\ t' = table ++ [("vector"%string, vector)])
    /\ (forall col es w1,
          Arrow.getitem table column = Ok col ->
          FunctionWrapper.__call__ wrapper col w = (Ok es, w1) ->
          length es <> Arrow.num_rows table ->
          exists e, run = (Err e, w1))
    /\ (forall e, Arrow.getitem table column = Err e -> run = (Err e, w))
    /\ ((1 <= batch_size)%Z ->
        (forall xs s, exists vs s',
            func xs s = (Ok vs, s') /\ length vs = length xs) ->
        (forall es, length es = Arrow.num_rows table ->
                    exists vector, vec_to_table es = Ok vector) ->
        forall col,
          Arrow.getitem table column = Ok col ->
          length col = Arrow.num_rows table ->
          exists vector w',
            run = (Ok (table ++ [("vector"%string, vector)]), w')
            /\ length vector = Arrow.num_rows table).
Proof.
  intros Hrows table run.
  destruct (configured_ok func wrap_api show_progress batch_size)
    as (wrapper & Hcfg & Hfunc & Hbs).
  exists wrapper. split; [exact Hcfg|]. split; [exact Hfunc|].
  split; [exact Hbs|].
  assert (Hrun : run
    = bind (lift_result (Arrow.getitem table column)) (fun col =>
      bind (FunctionWrapper.__call__ wrapper (Arrow.to_numpy col)) (fun es =>
      bind (lift_result (vec_to_table es)) (fun vector =>
      lift_result (Arrow.append_column table "vector" vector)))) w).
  { unfold run, with_embeddings. unfold bind at 1. unfold lift_result at 1.
    rewrite Hcfg. reflexivity. }
  unfold Arrow.to_numpy in Hrun.
  split; [|split; [|split]].
  - intros t' w' Hok. rewrite Hrun in Hok. clear Hrun.
    unfold bind, lift_result in Hok.
    destruct (Arrow.getitem table column) as [col|] eqn:Hcol; [|discriminate].
    destruct (FunctionWrapper.__call__ wrapper col w) as [[es|] w1] eqn:Hcall;
      [|discriminate].
    destruct (vec_to_table es) as [vector|] eqn:Hvec; [|discriminate].
    destruct (Arrow.append_column table "vector" vector) as [t|] eqn:Happ;
      [|discriminate].
    inversion Hok; subst t w1.
    apply append_column_ok in Happ. destruct Happ as [Hlen Ht].
    exists col, es, vector.
    split; [reflexivity|]. split; [exact Hcall|]. split; [exact Hvec|].
    split; [|exact Ht].
    rewrite <- (Hrows es vector Hvec). exact Hlen.
  - intros col es w1 Hcol Hcall Hne. rewrite Hrun. unfold bind, lift_result.
    rewrite Hcol, Hcall.
    destruct (vec_to_table es) as [vector|] eqn:Hvec; [|eexists; reflexivity].
    unfold Arrow.append_column.
    destruct (Nat.eqb_spec (length vector) (Arrow.num_rows table)) as [E|E].
    + rewrite (Hrows es vector Hvec) in E. contradiction.
    + eexists. reflexivity.
  - intros e Hcol. rewrite Hrun. unfold bind, lift_result. rewrite Hcol.
    reflexivity.
  - intros Hb Hf Hvec col Hcol Hlen.
    destruct (PipelineFacts.call_concat_results wrapper col (b := batch_size) w)
      as (batches & results & w' & _ & Hcat & _ & Hall & Hcall);
      [exact Hbs | exact Hb | rewrite Hfunc; exact Hf |].
    assert (Hn : length (concat results) = length col)
      by (rewrite (PipelineFacts.Forall2_length_concat Hall), Hcat; reflexivity).
    destruct (Hvec (concat results)) as (vector & Hv); [congruence|].
    exists vector, w'. rewrite Hrun. unfold bind, lift_result.
    rewrite Hcol, Hcall, Hv. unfold Arrow.append_column.
    assert (E : length vector = Arrow.num_rows table)
      by (rewrite (Hrows _ _ Hv); congruence).
    rewrite E, Nat.eqb_refl. split; reflexivity.
Qed.

End WithEmbeddings.

(** The statement of C8 on a table of three rows, embedded in batches of
    two through retry and rate limiter. *)
Lemma with_embeddings_appends_vector_witness :
  let table := table_of (fun _ : unit => []) (PaTable unit sample_table) in
  let run := with_embeddings (fun _ : unit => []) sample_vec_to_table
               sample_embed (PaTable unit sample_table) "text" true false 2
               (sample_world tt 10) in
  exists wrapper,
    configured sample_embed true false 2 = Ok wrapper
    /\ FunctionWrapper.func wrapper = sample_embed
    /\ FunctionWrapper._batch_size wrapper = Some 2%Z
    /\ (forall t' w',
          run = (Ok t', w') ->
          exists col es vector,
            Arrow.getitem table "text" = Ok col
            /\ FunctionWrapper.__call__ wrapper col (sample_world tt 10)
               = (Ok es, w')
            /\ sample_vec_to_table es = Ok vector
            /\ length es = Arrow.num_rows table
            /\ t' = table ++ [("vector"%string, vector)])
    /\ (forall col es w1,
          Arrow.getitem table "text" = Ok col ->
          FunctionWrapper.__call__ wrapper col (sample_world tt 10)
          = (Ok es, w1) ->
          length es <> Arrow.num_rows table ->
          exists e, run = (Err e, w1))
    /\ (forall e, Arrow.getitem table "text" = Err e ->
                  run = (Err e, sample_world tt 10))
    /\ ((1 <= 2)%Z ->
        (forall xs s, exists vs s',
            sample_embed xs s = (Ok vs, s') /\ length vs = length xs) ->
        (forall es, length es = Arrow.num_rows table ->
                    exists vector, sample_vec_to_table es = Ok vector) ->
        forall col,
          Arrow.getitem table "text" = Ok col ->
          length col = Arrow.num_rows table ->
          exists vector w',
            run = (Ok (table ++ [("vector"%string, vector)]), w')
            /\ length vector = Arrow.num_rows table).
Proof.
  apply (@with_embeddings_appends_vector sample_cell (list nat) unit unit
           (fun _ => []) sample_vec_to_table sample_embed
           (PaTable unit sample_table) "text" true false 2
           (sample_world tt 10)).
  intros es col H. inversion H. apply length_map.
Defined.

(** End to end: the texts "a", "bb", "ccc", embedded by their length in
    batches of two, give the table with the vectors in the order of the
    rows; the rate limiter went through one call for each batch. *)
Example with_embeddings_end_to_end :
  exists w',
    with_embeddings (fun _ : unit => []) sample_vec_to_table sample_embed
      (PaTable unit sample_table) "text" true false 2 (sample_world tt 10)
    = (Ok (sample_table
           ++ [("vector"%string, [inr [1]; inr [2]; inr [3]])]), w')
    /\ throttled w' = 2.
Proof.
  eexists. split; vm_compute; reflexivity.
Qed.

End TableFacts.

(* ================================================================= *)
(** * Further properties *)

(** ** The pipeline at its edges *)

Module PipelineEdgeFacts.

Local Open Scope nat_scope.

Section Edges.

Variables Item Vec S : Type.

Local Abbreviation wrapper := (FunctionWrapper.t Item Vec S).

Lemma to_batches_unset (self : wrapper) (arr : list Item) :
  FunctionWrapper._batch_size self = None ->
  exists msg, FunctionWrapper.to_batches self arr = Err (TypeError msg).
Proof.
  intros Hbs. unfold FunctionWrapper.to_batches, FunctionWrapper.progress_total,
    FunctionWrapper._chunker. rewrite Hbs.
  destruct (FunctionWrapper._progress self); eexists; reflexivity.
Qed.

Lemma to_batches_zero (self : wrapper) (arr : list Item) :
  FunctionWrapper._batch_size self = Some 0%Z ->
  FunctionWrapper.to_batches self arr
  = Err (if FunctionWrapper._progress self
         then ZeroDivisionError "division by zero"
         else ValueError "range() arg 3 must not be zero").
Proof.
  intros Hbs. unfold FunctionWrapper.to_batches, FunctionWrapper.progress_total,
    FunctionWrapper._chunker. rewrite Hbs.
  destruct (FunctionWrapper._progress self); reflexivity.
Qed.

Lemma to_batches_negative (self : wrapper) (arr : list Item) (b : Z) :
  FunctionWrapper._batch_size self = Some b ->
  (b < 0)%Z ->
  FunctionWrapper.to_batches self arr = Ok [].
Proof.
  intros Hbs Hb.
  rewrite (BatcherFacts.to_batches_chunker self arr Hbs) by lia.
  unfold FunctionWrapper._chunker, Py.range, Py.range_len. rewrite Hbs.
  destruct (Z.eqb_spec b 0); [lia|].
  destruct (Z.ltb_spec 0 b); [lia|].
  destruct (Z.ltb_spec (Z.of_nat (length arr)) 0); [lia|].
  reflexivity.
Qed.

Lemma to_batches_empty (self : wrapper) (b : Z) :
  FunctionWrapper._batch_size self = Some b ->
  b <> 0%Z ->
  FunctionWrapper.to_batches self [] = Ok [].
Proof.
  intros Hbs Hb.
  destruct (Z.lt_ge_cases b 0) as [Hneg | Hpos].
  - apply (to_batches_negative self [] Hbs Hneg).
  - rewrite (BatcherFacts.to_batches_chunker self [] Hbs) by lia.
    rewrite (BatcherFacts.chunker_chunks self [] Hbs) by lia.
    reflexivity.
Qed.

(** What the call does once the batches are known. *)
Lemma call_on_batches (self : wrapper) (text : list Item) (w : world S) :
  exists embed_func w0,
    follows embed_func (FunctionWrapper.func self)
    /\ user w0 = user w
    /\ FunctionWrapper.__call__ self text w
       = match FunctionWrapper.to_batches self text with
         | Ok batches => FunctionWrapper.comprehension embed_func batches w0
         | Err e => (Err e, w0)
         end.
Proof.
  destruct (PipelineFacts.call_shape self text w)
    as (embed_func & w0 & Hfol & Hu & Hcall).
  exists embed_func, w0. split; [exact Hfol|]. split; [exact Hu|].
  rewrite Hcall. unfold bind, lift_result.
  destruct (FunctionWrapper.to_batches self text); reflexivity.
Qed.

(** X1. A pipeline whose batch size was never set, or was set to zero,
    raises when it is called, before its function is invoked at all: with
    no batch size the error is a [TypeError], with zero it is the
    [ValueError] of [range] (the [ZeroDivisionError] of the progress total
    when progress is on). *)
Theorem call_with_unusable_batch_size (self : wrapper) (text : list Item)
        (w : world S) :
  FunctionWrapper._batch_size self = None
  \/ FunctionWrapper._batch_size self = Some 0%Z ->
  exists e w',
    FunctionWrapper.__call__ self text w = (Err e, w')
    /\ user w' = user w
    /\ (FunctionWrapper._batch_size self = None -> exists msg, e = TypeError msg)
    /\ (FunctionWrapper._batch_size self = Some 0%Z ->
        e = if FunctionWrapper._progress self
            then ZeroDivisionError "division by zero"
            else ValueError "range() arg 3 must not be zero").
Proof.
  intros Hbs.
  destruct (call_on_batches self text w) as (embed_func & w0 & _ & Hu & Hcall).
  destruct Hbs as [Hnone | Hzero].
  - destruct (to_batches_unset self text Hnone) as (msg & Hb).
    rewrite Hb in Hcall. exists (TypeError msg), w0.
    split; [exact Hcall|]. split; [exact Hu|]. split.
    + intros _. exists msg. reflexivity.
    + intros H. congruence.
  - rewrite (to_batches_zero self text Hzero) in Hcall.
    eexists _, w0. split; [exact Hcall|]. split; [exact Hu|]. split.
    + intros H. congruence.
    + intros _. reflexivity.
Qed.

(** X2. A negative batch size is accepted, and loses the input: whatever
    the input, the call returns the empty list, and the function is never
    invoked. *)
Theorem negative_batch_size_drops_input (self : wrapper) (text : list Item)
        (b : Z) (w : world S) :
  FunctionWrapper._batch_size self = Some b ->
  (b < 0)%Z ->
  exists w',
    FunctionWrapper.__call__ self text w = (Ok [], w') /\ user w' = user w.
Proof.
  intros Hbs Hb.
  destruct (call_on_batches self text w) as (embed_func & w0 & _ & Hu & Hcall).
  rewrite (to_batches_negative self text Hbs Hb) in Hcall.
  exists w0. split; [exact Hcall | exact Hu].
Qed.

(** X3. On the empty input, a pipeline with a batch size other than zero
    returns the empty list without invoking its function. *)
Theorem call_on_empty_input (self : wrapper) (b : Z) (w : world S) :
  FunctionWrapper._batch_size self = Some b ->
  b <> 0%Z ->
  exists w',
    FunctionWrapper.__call__ self [] w = (Ok [], w') /\ user w' = user w.
Proof.
  intros Hbs Hb.
  destruct (call_on_batches self [] w) as (embed_func & w0 & _ & Hu & Hcall).
  rewrite (to_batches_empty self Hbs Hb) in Hcall.
  exists w0. split; [exact Hcall | exact Hu].
Qed.

End Edges.

(** The statement of X1 on a pipeline that was never given a batch size. *)
Lemma call_with_unusable_batch_size_witness :
  exists e w',
    FunctionWrapper.__call__ unsized_pipeline [1; 2; 3] (sample_world 0 10)
    = (Err e, w')
    /\ user w' = user (sample_world 0 10)
    /\ (FunctionWrapper._batch_size unsized_pipeline = None ->
        exists msg, e = TypeError msg)
    /\ (FunctionWrapper._batch_size unsized_pipeline = Some 0%Z ->
        e = if FunctionWrapper._progress unsized_pipeline
            then ZeroDivisionError "division by zero"
            else ValueError "range() arg 3 must not be zero").
Proof.
  apply (@call_with_unusable_batch_size nat nat nat unsized_pipeline [1; 2; 3]
           (sample_world 0 10)).
  left. reflexivity.
Defined.

(** The statement of X2 on a batch size of [-3]. *)
Lemma negative_batch_size_drops_input_witness :
  exists w',
    FunctionWrapper.__call__ negative_pipeline [1; 2; 3] (sample_world 0 10)
    = (Ok [], w')
    /\ user w' = user (sample_world 0 10).
Proof.
  apply (@negative_batch_size_drops_input nat nat nat negative_pipeline
           [1; 2; 3] (-3)%Z (sample_world 0 10)); [reflexivity | lia].
Defined.

(** The statement of X3 on a pipeline with retry and rate limiter. *)
Lemma call_on_empty_input_witness :
  exists w',
    FunctionWrapper.__call__ sample_pipeline [] (sample_world 0 10) = (Ok [], w')
    /\ user w' = user (sample_world 0 10).
Proof.
  apply (@call_on_empty_input nat nat nat sample_pipeline 2%Z
           (sample_world 0 10)); [reflexivity | lia].
Defined.

Section Failures.

Variables Item Vec S : Type.

Local Abbreviation wrapper := (FunctionWrapper.t Item Vec S).

Lemma comprehension_stops (embed_func : list Item -> M S (list Vec))
      (f : list Item -> S -> result (list Vec) * S) :
  follows embed_func f ->
  (forall c w e s1,
      f c (user w) = (Err e, s1) ->
      exists w1, embed_func c w = (Err e, w1) /\ user w1 = s1) ->
  forall pre w results s1 c post e s2,
    batch_results f pre (user w) results s1 ->
    f c s1 = (Err e, s2) ->
    exists w',
      FunctionWrapper.comprehension embed_func (pre ++ c :: post) w = (Err e, w')
      /\ user w' = s2.
Proof.
  intros Hok Herr.
  induction pre as [|c0 pre IH]; intros w results s1 c post e s2 Hpre Hc;
    inversion Hpre; subst.
  - destruct (Herr c w e s2 Hc) as (w1 & Hrun & Hu).
    exists w1. split; [|exact Hu]. cbn. unfold bind. rewrite Hrun. reflexivity.
  - match goal with
    | H : f c0 (user w) = (Ok ?embs, ?s) |- _ =>
        destruct (Hok c0 w embs s H) as (w1 & Hrun & Hu)
    end.
    subst. 
    match goal with
    | H : batch_results f pre (user w1) _ _ |- _ =>
        destruct (IH w1 _ _ c post e s2 H Hc) as (w' & Hrest & Hu')
    end.
    exists w'. split; [|exact Hu']. cbn [app FunctionWrapper.comprehension].
    unfold bind at 1. rewrite Hrun. unfold bind at 1. rewrite Hrest.
    reflexivity.
Qed.

Lemma raises_direct (f : list Item -> S -> result (list Vec) * S) :
  forall c w e s1,
    f c (user w) = (Err e, s1) ->
    exists w1,
      lift_user (f (FunctionWrapper.tolist c)) w = (Err e, w1) /\ user w1 = s1.
Proof.
  intros c w e s1 Hf. unfold lift_user, FunctionWrapper.tolist. rewrite Hf.
  eexists. split; reflexivity.
Qed.

(** X4. Without retry, the first batch on which the function raises ends
    the call: the batches before it have been processed in order, the
    exception of the function is raised unchanged, no result is returned
    for the batches already processed, and the function is not invoked on
    the later batches. *)
Theorem first_failure_ends_the_call (self : wrapper) (text : list Item)
        (w : world S) (pre : list (list Item)) (c : list Item)
        (post : list (list Item)) (results : list (list Vec))
        (s1 s2 : S) (e : exn) :
  FunctionWrapper.retry_kwargs self = None ->
  FunctionWrapper.to_batches self text = Ok (pre ++ c :: post) ->
  batch_results (FunctionWrapper.func self) pre (user w) results s1 ->
  FunctionWrapper.func self c s1 = (Err e, s2) ->
  exists w',
    FunctionWrapper.__call__ self text w = (Err e, w') /\ user w' = s2.
Proof.
  intros Hkw Hbat Hpre Hc.
  unfold FunctionWrapper.__call__. rewrite Hkw.
  destruct (FunctionWrapper.rate_limiter_kwargs self) as [rl|].
  - unfold bind at 1 2. unfold sys_version_info_minor.
    destruct (11 <=? version_minor w)%Z; cbn [print ret];
      unfold bind, lift_result; rewrite Hbat.
    + apply (comprehension_stops (f := FunctionWrapper.func self))
        with (results := results) (s1 := s1);
        [apply PipelineFacts.follows_direct | apply raises_direct
         | exact Hpre | exact Hc].
    + apply (comprehension_stops (f := FunctionWrapper.func self))
        with (results := results) (s1 := s1);
        [apply PipelineFacts.follows_limiter, PipelineFacts.follows_direct
         | | exact Hpre | exact Hc].
      intros c0 w0 e0 s0 H0.
      unfold RateLimiterPkg.limiter, RateLimiterPkg.acquire, bind.
      apply (raises_direct (FunctionWrapper.func self) c0
               (set_throttled _ w0)). exact H0.
  - unfold bind, ret, lift_result. rewrite Hbat.
    apply (comprehension_stops (f := FunctionWrapper.func self))
      with (results := results) (s1 := s1);
      [apply PipelineFacts.follows_direct | apply raises_direct
       | exact Hpre | exact Hc].
Qed.

End Failures.

(** The statement of X4 on five items in batches of two, where the function
    raises on the second batch. *)
Lemma first_failure_ends_the_call_witness :
  exists w',
    FunctionWrapper.__call__ picky_pipeline [10; 20; 30; 40; 50]
      (sample_world 0 10)
    = (Err (UserError 1), w')
    /\ user w' = 2.
Proof.
  apply (@first_failure_ends_the_call nat nat nat picky_pipeline
           [10; 20; 30; 40; 50] (sample_world 0 10)
           [[10; 20]] [30; 40] [[50]] [[10; 20]] 1 2 (UserError 1)).
  - reflexivity.
  - reflexivity.
  - econstructor; [reflexivity | constructor].
  - reflexivity.
Defined.

Section Counting.

Variables Item Vec S : Type.

Lemma batch_results_counted (f : list Item -> S -> result (list Vec) * S) :
  forall batches s results s',
    batch_results (fun xs => counted (f xs)) batches s results s' ->
    snd s' = snd s + length batches.
Proof.
  intros batches s results s' H. induction H.
  - cbn. lia.
  - unfold counted in H. destruct (f c (fst s)) as [r s0].
    inversion H; subst. cbn in *. lia.
Qed.

(** X5. A function that returns as many vectors as it is given items is
    invoked exactly once for each batch, [ceil(len(text) / b)] times in
    all, whichever of retry, rate limiting and progress are configured. *)
Theorem one_invocation_per_batch
        (f : list Item -> S -> result (list Vec) * S)
        (self : FunctionWrapper.t Item Vec (S * nat)) (text : list Item)
        (b : Z) (w : world (S * nat)) :
  FunctionWrapper.func self = (fun xs => counted (f xs)) ->
  FunctionWrapper._batch_size self = Some b ->
  (1 <= b)%Z ->
  (forall xs s, exists vs s', f xs s = (Ok vs, s') /\ length vs = length xs) ->
  exists out w',
    FunctionWrapper.__call__ self text w = (Ok out, w')
    /\ Z.of_nat (snd (user w'))
       = (Z.of_nat (snd (user w)) + Py.ceil_div (Z.of_nat (length text)) b)%Z.
Proof.
  intros Hfunc Hbs Hb Hf.
  assert (Hf' : forall xs s, exists vs s',
             FunctionWrapper.func self xs s = (Ok vs, s')
             /\ length vs = length xs).
  { intros xs s. destruct (Hf xs (fst s)) as (vs & s' & Hx & Hlen).
    exists vs, (s', Datatypes.S (snd s)). rewrite Hfunc. unfold counted.
    rewrite Hx. split; [reflexivity | exact Hlen]. }
  destruct (PipelineFacts.call_concat_results self text w Hbs Hb Hf')
    as (batches & results & w' & Hbat & _ & Hbr & _ & Hcall).
  exists (concat results), w'. split; [exact Hcall|].
  rewrite Hfunc in Hbr. apply batch_results_counted in Hbr. rewrite Hbr.
  rewrite (BatcherFacts.to_batches_chunker self text Hbs) in Hbat by lia.
  rewrite (BatcherFacts.chunker_chunks self text Hbs Hb) in Hbat.
  inversion Hbat. rewrite length_map, length_seq.
  pose proof (BatcherFacts.ceil_div_spec (Z.of_nat (length text)) Hb).
  assert (0 <= Py.ceil_div (Z.of_nat (length text)) b)%Z by nia.
  lia.
Qed.

End Counting.

(** The statement of X5 on five items in batches of two: three invocations. *)
Lemma one_invocation_per_batch_witness :
  exists out w',
    FunctionWrapper.__call__ counting_pipeline [1; 2; 3; 4; 5]
      (sample_world (tt, O) 10)
    = (Ok out, w')
    /\ Z.of_nat (snd (user w'))
       = (Z.of_nat (snd (user (sample_world (tt, O) 10)))
          + Py.ceil_div (Z.of_nat (length [1; 2; 3; 4; 5])) 2)%Z.
Proof.
  apply (@one_invocation_per_batch nat nat unit (fun xs s => (Ok xs, s))
           counting_pipeline [1; 2; 3; 4; 5] 2%Z (sample_world (tt, O) 10)).
  - reflexivity.
  - reflexivity.
  - lia.
  - intros xs s. exists xs, s. split; reflexivity.
Defined.

Section Limiter.

Variables Item Vec S : Type.

Local Abbreviation wrapper := (FunctionWrapper.t Item Vec S).

Lemma limiter_frame_ret (A : Type) (a : A) : limiter_frame (ret (S := S) a).
Proof. limiter_frame_prim. Qed.

Lemma limiter_frame_raise (A : Type) e :
  limiter_frame (raise (S := S) (A := A) e).
Proof. limiter_frame_prim. Qed.

Lemma limiter_frame_random : limiter_frame (random (S := S)).
Proof. limiter_frame_prim. Qed.

Lemma limiter_frame_suspend secs :
  limiter_frame (RetryPkg.suspend (S := S) secs).
Proof. limiter_frame_prim. Qed.

Lemma limiter_frame_lift_user (A : Type) (f : S -> result A * S) :
  limiter_frame (lift_user f).
Proof.
  intros w n. destruct w. unfold lift_user. cbn.
  destruct (f user0). reflexivity.
Qed.

Lemma limiter_frame_try (A : Type) (m : M S A) :
  limiter_frame m -> limiter_frame (try_ m).
Proof.
  intros Hm w n. unfold try_. rewrite (Hm w n). destruct (m w). reflexivity.
Qed.

Lemma limiter_frame_bind (A B : Type) (m : M S A) (k : A -> M S B) :
  limiter_frame m -> (forall a, limiter_frame (k a)) ->
  limiter_frame (bind m k).
Proof.
  intros Hm Hk w n. unfold bind. rewrite (Hm w n).
  destruct (m w) as [[a|e] w1]; cbn [fst snd]; [|reflexivity].
  rewrite (Hk a w1 n). destruct (k a w1); reflexivity.
Qed.

Lemma limiter_frame_attempts (A : Type) kw (f : M S A) :
  limiter_frame f ->
  forall more wait, limiter_frame (RetryPkg.attempts kw f more wait).
Proof.
  intros Hf. induction more as [|more IH]; intros wait; cbn.
  - apply limiter_frame_bind; [apply limiter_frame_try, Hf|].
    intros [a|e]; [apply limiter_frame_ret | apply limiter_frame_raise].
  - apply limiter_frame_bind; [apply limiter_frame_try, Hf|].
    intros [a|e]; [apply limiter_frame_ret|].
    apply limiter_frame_bind; [apply limiter_frame_suspend|]. intros _.
    apply limiter_frame_bind; [apply limiter_frame_random|]. intros j.
    apply IH.
Qed.

Lemma limiter_frame_per_batch (self : wrapper) (c : list Item) :
  limiter_frame (per_batch self c).
Proof.
  unfold per_batch. destruct (FunctionWrapper.retry_kwargs self) as [kw|].
  - apply limiter_frame_attempts, limiter_frame_lift_user.
  - apply limiter_frame_lift_user.
Qed.

Lemma set_throttled_twice (m n : nat) (w : world S) :
  set_throttled m (set_throttled n w) = set_throttled m w.
Proof. destruct w. reflexivity. Qed.

Lemma set_throttled_same (w : world S) : set_throttled (throttled w) w = w.
Proof. destruct w. reflexivity. Qed.

(** Through a rate limiter, the batches give what they give without it;
    the limiter is crossed once for each batch that is started. *)
Lemma comprehension_limiter kw (embed_func : list Item -> M S (list Vec)) :
  (forall c, limiter_frame (embed_func c)) ->
  forall batches w n r w1,
    FunctionWrapper.comprehension embed_func batches w = (r, w1) ->
    exists k,
      k <= length batches
      /\ (forall out, r = Ok out -> k = length batches)
      /\ FunctionWrapper.comprehension (RateLimiterPkg.limiter kw embed_func)
           batches (set_throttled n w)
         = (r, set_throttled (n + k) w1).
Proof.
  intros He. induction batches as [|c rest IH]; intros w n r w1 Hrun.
  - cbn in Hrun. inversion Hrun; subst. exists 0.
    split; [lia|]. split; [reflexivity|]. cbn. rewrite Nat.add_0_r.
    reflexivity.
  - cbn [FunctionWrapper.comprehension] in *.
    unfold bind at 1 in Hrun. unfold bind at 1.
    unfold RateLimiterPkg.limiter at 1. unfold bind at 1.
    unfold RateLimiterPkg.acquire at 1.
    cbn [throttled set_throttled]. rewrite set_throttled_twice.
    rewrite (He c w (Datatypes.S n)).
    destruct (embed_func c w) as [[embs|e] w2]; cbn [fst snd].
    + unfold bind at 1 in Hrun. unfold bind at 1.
      destruct (FunctionWrapper.comprehension embed_func rest w2)
        as [r2 w3] eqn:Hrest.
      destruct (IH w2 (Datatypes.S n) r2 w3 Hrest) as (k & Hk & Hall & Hlim).
      rewrite Hlim. exists (Datatypes.S k).
      replace (n + Datatypes.S k) with (Datatypes.S n + k) by lia.
      destruct r2 as [embeds|e2]; inversion Hrun; subst;
        (split; [cbn; lia|]); (split; [|reflexivity]).
      * intros out _. cbn. f_equal. apply (Hall embeds). reflexivity.
      * intros out H. discriminate.
    + inversion Hrun; subst. exists 1. split; [cbn; lia|].
      split; [intros out H; discriminate|].
      replace (n + 1) with (Datatypes.S n) by lia. reflexivity.
Qed.

(** X6. On a runtime where the rate limiter is applied (minor version
    below 11), with arguments the limiter accepts ([max_calls] and [period]
    positive), each batch that is started goes through the limiter once,
    whatever the number of attempts the retry policy makes on it: a call
    that returns has gone through the limiter once for every batch, and a
    call that raises at most that often. *)
Theorem limiter_crossed_once_per_batch (self : wrapper) kw
        (text : list Item) (w : world S) (r : result (list Vec))
        (w' : world S) :
  FunctionWrapper.rate_limiter_kwargs self = Some kw ->
  (0 < RateLimiterPkg.max_calls kw)%Q ->
  (0 < RateLimiterPkg.period kw)%Q ->
  (version_minor w < 11)%Z ->
  FunctionWrapper.__call__ self text w = (r, w') ->
  exists k,
    throttled w' = throttled w + k
    /\ (forall batches,
          FunctionWrapper.to_batches self text = Ok batches ->
          k <= length batches
          /\ (forall out, r = Ok out -> k = length batches)).
Proof.
  intros Hrl _ _ Hv Hrun.
  assert (Hcall : FunctionWrapper.__call__ self text w
                  = bind (lift_result (FunctionWrapper.to_batches self text))
                         (FunctionWrapper.comprehension
                            (RateLimiterPkg.limiter kw (per_batch self))) w).
  { unfold FunctionWrapper.__call__, per_batch. rewrite Hrl.
    unfold bind at 1 2. unfold sys_version_info_minor.
    destruct (Z.leb_spec 11 (version_minor w)); [lia|].
    destruct (FunctionWrapper.retry_kwargs self); reflexivity. }
  rewrite Hcall in Hrun. unfold bind, lift_result in Hrun.
  destruct (FunctionWrapper.to_batches self text) as [batches|e].
  - destruct (FunctionWrapper.comprehension (per_batch self) batches w)
      as [r0 w1] eqn:Hun.
    destruct (@comprehension_limiter kw (per_batch self)
                (limiter_frame_per_batch self)
                batches w (throttled w) r0 w1 Hun) as (k & Hk & Hall & Hlim).
    rewrite set_throttled_same in Hlim. rewrite Hlim in Hrun.
    inversion Hrun; subst r0 w'. exists k. split; [reflexivity|].
    intros batches' H. inversion H; subst. split; assumption.
  - inversion Hrun; subst. exists 0. split; [lia|].
    intros batches H. discriminate.
Qed.

(** X7. Turning progress on does not change what a call does, for a batch
    size that is set and is not zero: same outcome, same world. *)
Theorem progress_keeps_the_call (self self' : wrapper) (b : Z)
        (text : list Item) (w : world S) :
  FunctionWrapper.show_progress self = Ok self' ->
  FunctionWrapper._batch_size self = Some b ->
  b <> 0%Z ->
  FunctionWrapper.__call__ self' text w = FunctionWrapper.__call__ self text w.
Proof.
  intros Hsp Hbs Hb. inversion Hsp as [Hself]. clear Hsp.
  unfold FunctionWrapper.__call__. cbn [FunctionWrapper.func
    FunctionWrapper.retry_kwargs FunctionWrapper.rate_limiter_kwargs].
  assert (E : FunctionWrapper.to_batches
                (FunctionWrapper.Make (FunctionWrapper.func self)
                   (FunctionWrapper.rate_limiter_kwargs self)
                   (FunctionWrapper.retry_kwargs self)
                   (FunctionWrapper._batch_size self) true) text
              = FunctionWrapper.to_batches self text).
  { rewrite (@BatcherFacts.to_batches_chunker _ _ _ _ text b) by (cbn; auto).
    rewrite (BatcherFacts.to_batches_chunker self text Hbs Hb).
    reflexivity. }
  rewrite E. reflexivity.
Qed.

End Limiter.

(** The statement of X6 on four items in batches of two, on minor
    version 10, around a function that returns at every third invocation. *)
Lemma limiter_crossed_once_per_batch_witness :
  exists k,
    throttled (snd (FunctionWrapper.__call__ limited_flaky_pipeline
                      [1; 2; 3; 4] (sample_world 0 10)))
    = throttled (sample_world 0 10) + k
    /\ (forall batches,
          FunctionWrapper.to_batches limited_flaky_pipeline [1; 2; 3; 4]
          = Ok batches ->
          k <= length batches
          /\ (forall out, Ok [1; 2; 3; 4] = Ok out -> k = length batches)).
Proof.
  apply (@limiter_crossed_once_per_batch nat nat nat limited_flaky_pipeline
           (RateLimiterPkg.Kwargs (9 # 10) 1) [1; 2; 3; 4] (sample_world 0 10)
           (Ok [1; 2; 3; 4])
           (snd (FunctionWrapper.__call__ limited_flaky_pipeline
                   [1; 2; 3; 4] (sample_world 0 10)))).
  - reflexivity.
  - reflexivity.
  - reflexivity.
  - cbn. lia.
  - vm_compute. reflexivity.
Defined.

(** On this run the function is invoked six times, three for each batch,
    and the limiter is gone through twice. *)
Example limiter_not_crossed_by_attempts :
  exists w',
    FunctionWrapper.__call__ limited_flaky_pipeline [1; 2; 3; 4]
      (sample_world 0 10)
    = (Ok [1; 2; 3; 4], w')
    /\ user w' = 6
    /\ throttled w' = 2.
Proof.
  eexists. split; [vm_compute; reflexivity|]. split; reflexivity.
Qed.

(** The statement of X7 on a pipeline with retry and rate limiter. *)
Lemma progress_keeps_the_call_witness :
  FunctionWrapper.__call__
    (FunctionWrapper.Make (FunctionWrapper.func sample_pipeline)
       (FunctionWrapper.rate_limiter_kwargs sample_pipeline)
       (FunctionWrapper.retry_kwargs sample_pipeline)
       (FunctionWrapper._batch_size sample_pipeline) true)
    [1; 2; 3] (sample_world 0 10)
  = FunctionWrapper.__call__ sample_pipeline [1; 2; 3] (sample_world 0 10).
Proof.
  apply (@progress_keeps_the_call nat nat nat sample_pipeline _ 2%Z [1; 2; 3]
           (sample_world 0 10)); [reflexivity | reflexivity | lia].
Defined.

End PipelineEdgeFacts.

(** ** The backoff at its edges *)

Module BackoffEdgeFacts.

Section Termination.

Variables S A : Type.
Variable func : M S A.
Variable exponential_base : Q.
Variable jitter : bool.
Variable max_retries : Z.

Local Abbreviation loop :=
  (wrapper_loop func exponential_base jitter max_retries).

Lemma loop_ends :
  forall n fuel k0 d w,
    (n < fuel)%nat ->
    (max_retries - k0 <= Z.of_nat n)%Z ->
    exists out, loop fuel k0 d w = Some out.
Proof.
  induction n as [|n IH]; intros fuel k0 d w Hfuel Hk;
    (destruct fuel as [|fuel]; [lia|]);
    cbn [wrapper_loop];
    destruct (func w) as [[a|e] w1]; try (eexists; reflexivity).
  - destruct (Z.ltb_spec max_retries (k0 + 1)); [|lia]. eexists; reflexivity.
  - destruct (Z.ltb_spec max_retries (k0 + 1)); [eexists; reflexivity|].
    destruct (back_off exponential_base jitter d e w1)
      as [[d1|e1] w2]; [|eexists; reflexivity].
    apply IH; lia.
Qed.

Lemma loop_more_fuel :
  forall fuel k0 d w out,
    loop fuel k0 d w = Some out ->
    forall fuel', (fuel <= fuel')%nat -> loop fuel' k0 d w = Some out.
Proof.
  induction fuel as [|fuel IH]; intros k0 d w out Hrun fuel' Hle;
    [discriminate|].
  destruct fuel' as [|fuel']; [lia|].
  cbn [wrapper_loop] in *.
  destruct (func w) as [[a|e] w1]; [exact Hrun|].
  destruct (max_retries <? k0 + 1)%Z; [exact Hrun|].
  destruct (back_off exponential_base jitter d e w1)
    as [[d1|e1] w2]; [|exact Hrun].
  apply (IH _ _ _ _ Hrun fuel'). lia.
Qed.

(** X8. The [while True] loop of the wrapper always ends: whatever the
    wrapped function does and whatever the delays, [max_retries + 1]
    iterations (one, when [max_retries] is negative) are enough for the
    wrapper to return or raise, and more iterations allowed give the same
    outcome. *)
Theorem wrapper_ends (initial_delay : Q) (fuel : nat) (w : world S) :
  (Z.to_nat max_retries < fuel)%nat ->
  exists out,
    wrapper func initial_delay exponential_base jitter max_retries fuel w
    = Some out
    /\ (forall fuel',
          (fuel <= fuel')%nat ->
          wrapper func initial_delay exponential_base jitter max_retries
                  fuel' w
          = Some out).
Proof.
  intros Hfuel. unfold wrapper.
  destruct (loop_ends (n := Z.to_nat max_retries) (fuel := fuel) 0
              initial_delay w) as (out & Hrun); [exact Hfuel | lia|].
  exists out. split; [exact Hrun|].
  intros fuel' Hle. eapply loop_more_fuel; eassumption.
Qed.

End Termination.

(** The statement of X8 for three retries around a function that always
    raises. *)
Lemma wrapper_ends_witness :
  exists out,
    wrapper (lift_user always_fails) 1 2 true 3 4 (sample_world tt 10)
    = Some out
    /\ (forall fuel',
          (4 <= fuel')%nat ->
          wrapper (lift_user always_fails) 1 2 true 3 fuel' (sample_world tt 10)
          = Some out).
Proof.
  apply (@wrapper_ends unit nat (lift_user always_fails) 2 true 3 1 4
           (sample_world tt 10)).
  cbn. lia.
Defined.

Section Effort.

Variables S A : Type.
Variable f : S -> result A * S.
Variable exponential_base : Q.
Variable jitter : bool.
Variable max_retries : Z.

Local Abbreviation loop :=
  (wrapper_loop (lift_user (counted f)) exponential_base jitter max_retries).

Lemma loop_effort :
  forall fuel k0 d w res w',
    loop fuel k0 d w = Some (res, w') ->
    exists delays,
      slept w' = slept w ++ delays
      /\ (length delays <= Z.to_nat (max_retries - k0))%nat
      /\ snd (user w') = (snd (user w) + 1 + length delays)%nat
      /\ (snd (user w') <= snd (user w) + 1 + Z.to_nat (max_retries - k0))%nat
      /\ (random_ix w <= random_ix w')%nat
      /\ (random_ix w' <= random_ix w + Z.to_nat (max_retries - k0))%nat
      /\ (length (log w') = length (log w) + (random_ix w' - random_ix w))%nat.
Proof.
  induction fuel as [|fuel IH]; intros k0 d w res w' Hrun; [discriminate|].
  cbn [wrapper_loop] in Hrun. unfold lift_user at 1 in Hrun.
  unfold counted at 1 in Hrun.
  destruct (f (fst (user w))) as [[a|e] s1].
  - inversion Hrun; subst. exists []. rewrite app_nil_r. cbn. repeat split; lia.
  - destruct (Z.ltb_spec max_retries (k0 + 1)).
    + inversion Hrun; subst. exists []. rewrite app_nil_r. cbn.
      repeat split; lia.
    + set (w1 := set_user (s1, Datatypes.S (snd (user w))) w) in *.
      set (d1 := d * (exponential_base
                      * (1 + Py.float_of_bool jitter
                             * random_src w1 (random_ix w1)))).
      destruct (BackoffFacts.sleepable_dec (sleep_max w1) d1) as [Hfit | Hnot].
      2: { destruct (@BackoffFacts.back_off_refused _ exponential_base jitter
                       d e w1 Hnot) as [e' Hstop].
           rewrite Hstop in Hrun.
           inversion Hrun; subst res w'. exists []. rewrite app_nil_r.
           unfold w1.
           cbn [slept user random_ix log set_log set_random_ix set_user snd length].
           rewrite length_app. cbn [length]. repeat split; lia. }
      * rewrite (@BackoffFacts.back_off_sleeps _ exponential_base jitter
                   d e w1 Hfit) in Hrun.
        apply IH in Hrun.
        destruct Hrun as (delays & Hs & Hlen & Hc1 & Hc2 & Hr1 & Hr2 & Hlog).
        cbn [slept random_src random_ix user log set_slept set_log
               set_random_ix] in Hs, Hc1, Hc2, Hr1, Hr2, Hlog.
        fold d1 in Hs. unfold w1 in *.
        cbn [slept random_ix user log set_user snd] in *.
        rewrite length_app in Hlog. cbn [length] in Hlog.
        exists (d1 :: delays). split.
        { rewrite Hs, <- app_assoc. reflexivity. }
        cbn [length]. repeat split; lia.
Qed.

(** X9. The effort of the wrapper is bounded by [max_retries], whatever
    the function, the delays and the draws: it sleeps at most
    [max_retries] times, invokes the function exactly once more than it
    sleeps, so at most [max_retries + 1] times, and draws one random
    number and logs one record for each retry it prepares.  With
    [max_retries <= 0] the function is invoked exactly once and the
    wrapper never sleeps. *)
Theorem backoff_effort_is_bounded (initial_delay : Q) (fuel : nat)
        (w : world (S * nat)) (res : result A) (w' : world (S * nat)) :
  wrapper (lift_user (counted f)) initial_delay exponential_base jitter
          max_retries fuel w = Some (res, w') ->
  exists delays,
    slept w' = slept w ++ delays
    /\ (length delays <= Z.to_nat max_retries)%nat
    /\ snd (user w') = (snd (user w) + 1 + length delays)%nat
    /\ (snd (user w') <= snd (user w) + 1 + Z.to_nat max_retries)%nat
    /\ (random_ix w' <= random_ix w + Z.to_nat max_retries)%nat
    /\ (length (log w') = length (log w) + (random_ix w' - random_ix w))%nat
    /\ ((max_retries <= 0)%Z ->
        delays = [] /\ snd (user w') = (snd (user w) + 1)%nat).
Proof.
  intros Hrun. unfold wrapper in Hrun.
  destruct (loop_effort _ _ _ _ Hrun)
    as (delays & Hs & Hlen & Hc1 & Hc2 & Hr1 & Hr2 & Hlog).
  rewrite Z.sub_0_r in *.
  exists delays. repeat split; try assumption.
  - destruct delays; [reflexivity|]. cbn in Hlen. lia.
  - lia.
Qed.

End Effort.

(** The statement of X9 for three retries around a function that always
    raises. *)
Lemma backoff_effort_is_bounded_witness :
  exists delays,
    slept sample_gives_up_end = slept (sample_world (tt, O) 10) ++ delays
    /\ (length delays <= Z.to_nat 3)%nat
    /\ snd (user sample_gives_up_end)
       = (snd (user (sample_world (tt, O) 10)) + 1 + length delays)%nat
    /\ (snd (user sample_gives_up_end)
        <= snd (user (sample_world (tt, O) 10)) + 1 + Z.to_nat 3)%nat
    /\ (random_ix sample_gives_up_end
        <= random_ix (sample_world (tt, O) 10) + Z.to_nat 3)%nat
    /\ (length (log sample_gives_up_end)
        = length (log (sample_world (tt, O) 10))
          + (random_ix sample_gives_up_end
             - random_ix (sample_world (tt, O) 10)))%nat
    /\ ((3 <= 0)%Z ->
        delays = []
        /\ snd (user sample_gives_up_end)
           = (snd (user (sample_world (tt, O) 10)) + 1)%nat).
Proof.
  apply (@backoff_effort_is_bounded unit nat always_fails 2 true 3 1 4
           (sample_world (tt, O) 10)
           (Err (Exception_ "Maximum number of retries (3) exceeded."
                            (UserError 7)))
           sample_gives_up_end).
  vm_compute. reflexivity.
Defined.

Section Schedule.

Variables S A : Type.
Variable f : S -> result A * S.
Variable exponential_base : Q.
Variable max_retries : Z.


End Schedule.


Section Growth.

Variables S A : Type.
Variable f : S -> result A * S.
Variable exponential_base : Q.
Variable jitter : bool.
Variable max_retries : Z.

Lemma jitter_factor_le_2 (x : Q) :
  x < 1 -> 1 + Py.float_of_bool jitter * x <= 2.
Proof.
  intros Hx. destruct jitter; cbn [Py.float_of_bool]; lra.
Qed.

Lemma jittered_delay_upper_bound :
  0 <= exponential_base ->
  forall n draws d,
    (forall i, 0 <= draws i < 1) ->
    0 <= d ->
    jittered_delay exponential_base jitter draws d n
    <= d * (2 * exponential_base) ^ Z.of_nat n.
Proof.
  intros Hb. induction n as [|n IH]; intros draws d Hdr Hd.
  - cbn. lra.
  - cbn [jittered_delay].
    pose proof (BackoffFacts.jitter_factor_ge_1 jitter (proj1 (Hdr O))) as H1.
    pose proof (jitter_factor_le_2 (proj2 (Hdr O))) as H2.
    set (F := 1 + Py.float_of_bool jitter * draws O) in *.
    assert (Hd1 : 0 <= d * (exponential_base * F)).
    { apply Qmult_le_0_compat; [exact Hd|].
      apply Qmult_le_0_compat; lra. }
    eapply Qle_trans; [apply IH; [intros i; apply Hdr | exact Hd1]|].
    rewrite BackoffFacts.Qpower_succ_nat.
    assert (Hp : 0 <= (2 * exponential_base) ^ Z.of_nat n)
      by (apply Qpower_0_le; lra).
    set (p := (2 * exponential_base) ^ Z.of_nat n) in *.
    assert (H3 : 0 <= d * exponential_base)
      by (apply Qmult_le_0_compat; lra).
    assert (H4 : 0 <= d * exponential_base * p)
      by (apply Qmult_le_0_compat; assumption).
    nra.
Qed.

Lemma jittered_delay_nonneg :
  0 <= exponential_base ->
  forall n draws d,
    (forall i, 0 <= draws i) ->
    0 <= d ->
    0 <= jittered_delay exponential_base jitter draws d n.
Proof.
  intros Hb. induction n as [|n IH]; intros draws d Hdr Hd;
    cbn [jittered_delay]; [exact Hd|].
  apply IH; [intros i; apply Hdr|].
  pose proof (BackoffFacts.jitter_factor_ge_1 jitter (Hdr O)) as H1.
  apply Qmult_le_0_compat; [exact Hd|].
  apply Qmult_le_0_compat; lra.
Qed.

(** A delay of the schedule can be slept when the initial delay and the
    base are not negative, the draws are in [[0, 1)] and
    [initial_delay * (2 * exponential_base) ^ n] is within the range of the
    clock. *)
Lemma bounded_schedule_is_sleepable (limit initial_delay : Q)
      (draws : nat -> Q) (n : nat) :
  0 <= initial_delay ->
  0 <= exponential_base ->
  (forall i, 0 <= draws i < 1) ->
  initial_delay * (2 * exponential_base) ^ Z.of_nat n <= limit ->
  sleepable limit (jittered_delay exponential_base jitter draws initial_delay n).
Proof.
  intros Hd Hb Hdr Hmax. split.
  - apply jittered_delay_nonneg; [exact Hb | | exact Hd].
    intros i. apply Hdr.
  - eapply Qle_trans; [|exact Hmax].
    apply jittered_delay_upper_bound; assumption.
Qed.

(** X11. Jitter at most doubles each step: for a non-negative initial
    delay and base and draws in [[0, 1)], the delay slept after the [n]-th
    failure is at most [initial_delay * (2 * exponential_base) ^ n]. *)
Theorem slept_delay_upper_bound (initial_delay : Q) (fuel : nat)
        (w : world S) (res : result A) (w' : world S) :
  0 <= initial_delay ->
  0 <= exponential_base ->
  (forall i, 0 <= random_src w i < 1) ->
  wrapper (lift_user f) initial_delay exponential_base jitter max_retries
          fuel w = Some (res, w') ->
  exists delays,
    slept w' = slept w ++ delays
    /\ (forall n d,
          nth_error delays n = Some d ->
          d <= initial_delay
               * (2 * exponential_base) ^ Z.of_nat (Datatypes.S n)).
Proof.
  intros Hd Hb Hdraws Hrun. unfold wrapper in Hrun.
  destruct (BackoffFacts.loop_slept _ _ _ _ _ _ _ _ Hrun)
    as (delays & Hs & Hx).
  exists delays. split; [exact Hs|].
  intros n d Hn. destruct (Hx n d Hn) as [_ E]. rewrite E.
  apply jittered_delay_upper_bound; [exact Hb | | exact Hd].
  intros i. apply Hdraws.
Qed.

(** X12. With a base of at least [1] the delays never shrink: each delay
    slept is at least the one slept before it. *)
Theorem slept_delays_grow (initial_delay : Q) (fuel : nat)
        (w : world S) (res : result A) (w' : world S) :
  1 <= exponential_base ->
  (forall i, 0 <= random_src w i) ->
  wrapper (lift_user f) initial_delay exponential_base jitter max_retries
          fuel w = Some (res, w') ->
  exists delays,
    slept w' = slept w ++ delays
    /\ (forall n d d',
          nth_error delays n = Some d ->
          nth_error delays (Datatypes.S n) = Some d' ->
          d <= d').
Proof.
  intros Hb Hdraws Hrun. unfold wrapper in Hrun.
  destruct (BackoffFacts.loop_slept _ _ _ _ _ _ _ _ Hrun)
    as (delays & Hs & Hx).
  exists delays. split; [exact Hs|].
  intros n d d' Hn Hn'.
  destruct (Hx n d Hn) as [H0 E]. destruct (Hx _ d' Hn') as [_ E'].
  rewrite E'. rewrite BackoffFacts.jittered_delay_step. rewrite <- E.
  pose proof (BackoffFacts.jitter_factor_ge_1 jitter
                (Hdraws (random_ix w + Datatypes.S n)%nat)) as HF.
  set (F := 1 + Py.float_of_bool jitter
                * random_src w (random_ix w + Datatypes.S n)) in *.
  assert (H1 : 0 <= d * (exponential_base - 1))
    by (apply Qmult_le_0_compat; lra).
  assert (H2 : 0 <= d * exponential_base * (F - 1)).
  { apply Qmult_le_0_compat; [|lra]. apply Qmult_le_0_compat; lra. }
  lra.
Qed.

End Growth.

(** With the default configuration (initial delay 1, base 2, jitter on) every
    delay of the first ten retries can be slept on a 64-bit nanosecond clock,
    whatever the draws in [[0, 1)]. *)
Example default_schedule_is_sleepable (draws : nat -> Q) (n : nat) :
  (forall i, 0 <= draws i < 1) ->
  (n <= 10)%nat ->
  sleepable Py.time_t_max (jittered_delay 2 true draws 1 n).
Proof.
  intros Hdr Hn.
  apply bounded_schedule_is_sleepable; [lra | lra | exact Hdr|].
  do 11 (destruct n as [|n]; [apply Qle_bool_iff; vm_compute; reflexivity|]).
  lia.
Qed.

(** The statement of X11 on a run of the default configuration around a
    function that raises twice. *)
Lemma slept_delay_upper_bound_witness :
  exists delays,
    slept sample_backoff_end = slept (sample_world O 10) ++ delays
    /\ (forall n d,
          nth_error delays n = Some d ->
          d <= 1 * (2 * 2) ^ Z.of_nat (Datatypes.S n)).
Proof.
  apply (@slept_delay_upper_bound nat nat fails_twice 2 true 7 1 10
           (sample_world O 10) (Ok 42%nat) sample_backoff_end).
  - lra.
  - lra.
  - intros i. cbn. lra.
  - vm_compute. reflexivity.
Defined.

(** The statement of X12 on the same run. *)
Lemma slept_delays_grow_witness :
  exists delays,
    slept sample_backoff_end = slept (sample_world O 10) ++ delays
    /\ (forall n d d',
          nth_error delays n = Some d ->
          nth_error delays (Datatypes.S n) = Some d' ->
          d <= d').
Proof.
  apply (@slept_delays_grow nat nat fails_twice 2 true 7 1 10
           (sample_world O 10) (Ok 42%nat) sample_backoff_end).
  - lra.
  - intros i. cbn. lra.
  - vm_compute. reflexivity.
Defined.

End BackoffEdgeFacts.

(** ** The cache at its edges *)

Module WeakLruEdgeFacts.

Import WeakLru.

Local Open Scope nat_scope.

Section Capacity.

Variable heap : addr -> object.
Variable maxsize : Z.
Variable func : addr -> list value -> value.

Lemma lookup_length live k (c : list entry) hit rest :
  lookup heap live k c = Some (hit, rest) ->
  length (hit :: rest) = length c.
Proof.
  revert hit rest. induction c as [|e c IH]; intros hit rest H;
    [discriminate|].
  cbn [lookup] in H. destruct (key_eqb heap live (fst e) k).
  - inversion H; subst. reflexivity.
  - destruct (lookup heap live k c) as [[h r]|]; [|discriminate].
    injection H as Hh Hr. subst hit rest.
    specialize (IH h r eq_refl). cbn [length] in *. lia.
Qed.

Lemma step_capacity (st : state) (o : op) :
  length (cache st) <= Z.to_nat maxsize ->
  length (cache (step heap maxsize func st o)) <= Z.to_nat maxsize.
Proof.
  intros Hst. destruct o as [self args | b]; [|exact Hst].
  cbn [step]. unfold inner, _func.
  destruct (maxsize <=? 0)%Z; [exact Hst|].
  destruct (lookup heap _ _ (cache st)) as [[hit rest]|] eqn:E;
    cbn [snd cache].
  - rewrite (lookup_length _ _ _ E). exact Hst.
  - rewrite length_firstn. lia.
Qed.

(** X13. The cache is bounded: whatever the calls, it never holds more
    than [maxsize] entries (none when [maxsize] is not positive). *)
Theorem cache_is_bounded (ops : list op) (st : state) :
  length (cache st) <= Z.to_nat maxsize ->
  length (cache (run heap maxsize func ops st)) <= Z.to_nat maxsize.
Proof.
  revert st. induction ops as [|o ops IH]; intros st Hst; [exact Hst|].
  cbn [run fold_left]. apply IH. apply step_capacity. exact Hst.
Qed.

Lemma step_without_cache (st : state) (o : op) :
  (maxsize <= 0)%Z ->
  cache (step heap maxsize func st o) = cache st
  /\ invocations (step heap maxsize func st o)
     = invocations st ++ calls [o].
Proof.
  intros Hm. destruct o as [self args | b]; cbn [step calls flat_map].
  - unfold inner, _func. destruct (Z.leb_spec maxsize 0); [|lia].
    cbn. split; reflexivity.
  - cbn. rewrite app_nil_r. split; reflexivity.
Qed.

(** X14. With [maxsize <= 0] nothing is ever cached: every call invokes
    the method, in the order of the calls, and the cache stays as it is. *)
Theorem no_caching_without_capacity (ops : list op) (st : state) :
  (maxsize <= 0)%Z ->
  cache (run heap maxsize func ops st) = cache st
  /\ invocations (run heap maxsize func ops st) = invocations st ++ calls ops.
Proof.
  intros Hm. revert st. induction ops as [|o ops IH]; intros st.
  - cbn. rewrite app_nil_r. split; reflexivity.
  - cbn [run fold_left].
    destruct (step_without_cache st o Hm) as [Hc Hi].
    destruct (IH (step heap maxsize func st o)) as [Hc' Hi'].
    unfold run in *. rewrite Hc', Hi', Hc, Hi. split; [reflexivity|].
    rewrite <- app_assoc. f_equal. unfold calls. cbn [flat_map].
    rewrite app_nil_r. reflexivity.
Qed.

End Capacity.

(** The statement of X13 on a cache of two entries and four receivers. *)
Lemma cache_is_bounded_witness :
  length (cache (run sample_heap 2 whoami
                     [Call 2 [VInt 7]; Call 3 [VInt 7]; Call 4 [VInt 7];
                      Call 2 [VInt 7]; Call 5 [VInt 7]]
                     (start [2; 3; 4; 5])))
  <= Z.to_nat 2.
Proof.
  apply (@cache_is_bounded sample_heap 2 whoami
           [Call 2 [VInt 7]; Call 3 [VInt 7]; Call 4 [VInt 7];
            Call 2 [VInt 7]; Call 5 [VInt 7]]
           (start [2; 3; 4; 5])).
  cbn. lia.
Defined.

(** The statement of X14 for a capacity of zero. *)
Lemma no_caching_without_capacity_witness :
  cache (run sample_heap 0 whoami
             [Call 2 [VInt 7]; Call 2 [VInt 7]; Del 2] (start [2]))
  = cache (start [2])
  /\ invocations (run sample_heap 0 whoami
                      [Call 2 [VInt 7]; Call 2 [VInt 7]; Del 2] (start [2]))
     = invocations (start [2])
       ++ calls [Call 2 [VInt 7]; Call 2 [VInt 7]; Del 2].
Proof.
  apply (@no_caching_without_capacity sample_heap 0 whoami
           [Call 2 [VInt 7]; Call 2 [VInt 7]; Del 2] (start [2])).
  lia.
Defined.

Section Hits.

Variable heap : addr -> object.
Variable maxsize : Z.
Variable func : addr -> list value -> value.

Lemma obj_eqb_refl (a : addr) : obj_eqb heap a a = true.
Proof. unfold obj_eqb. rewrite Nat.eqb_refl. reflexivity. Qed.

Lemma args_eqb_refl (xs : list value) : args_eqb heap xs xs = true.
Proof.
  induction xs as [|x xs IH]; [reflexivity|]. cbn [args_eqb]. rewrite IH.
  destruct x; cbn [value_eqb]; [rewrite Z.eqb_refl | rewrite obj_eqb_refl];
    reflexivity.
Qed.

Lemma key_eqb_refl live (k : key) : key_eqb heap live k k = true.
Proof.
  unfold key_eqb, weakref_eqb. rewrite args_eqb_refl, obj_eqb_refl,
    Nat.eqb_refl. destruct (live (referent (fst k))); reflexivity.
Qed.

Lemma key_eqb_ext live live' (k1 k2 : key) :
  (forall a, live a = live' a) ->
  key_eqb heap live k1 k2 = key_eqb heap live' k1 k2.
Proof.
  intros H. unfold key_eqb, weakref_eqb. rewrite !H. reflexivity.
Qed.

Lemma mem_app (a : addr) (l1 l2 : list addr) :
  mem a (l1 ++ l2) = mem a l1 || mem a l2.
Proof. unfold mem. apply existsb_app. Qed.

Lemma lookup_strong live k (c : list entry) hit rest :
  lookup heap live k c = Some (hit, rest) ->
  key_eqb heap live (fst hit) k = true
  /\ forall a, mem a (cache_strong (hit :: rest)) = mem a (cache_strong c).
Proof.
  revert hit rest. induction c as [|e c IH]; intros hit rest H;
    [discriminate|].
  cbn [lookup] in H. destruct (key_eqb heap live (fst e) k) eqn:E.
  - inversion H; subst. split; [exact E | reflexivity].
  - destruct (lookup heap live k c) as [[h r]|]; [|discriminate].
    injection H as Hh Hr. subst hit rest.
    destruct (IH h r eq_refl) as [Hk Hm]. split; [exact Hk|].
    intros a. specialize (Hm a). unfold cache_strong in *.
    cbn [flat_map] in *. rewrite !mem_app in *. rewrite <- Hm.
    destruct (mem a (entry_strong h)), (mem a (entry_strong e)); reflexivity.
Qed.

(** X15. Memoization: with room for at least one entry, a call repeated at
    once on the same receiver with the same arguments is a hit: it returns
    what the first call returned, does not invoke the method and leaves
    the cache as the first call left it. *)
Theorem repeated_call_is_a_hit (st : state) (self : addr)
        (args : list value) :
  (1 <= maxsize)%Z ->
  let first := inner heap maxsize func st self args in
  let second := inner heap maxsize func (snd first) self args in
  fst second = fst first
  /\ invocations (snd second) = invocations (snd first)
  /\ cache (snd second) = cache (snd first).
Proof.
  intros Hm first second. subst second.
  destruct (lookup heap (alive_in_call st self args) (WeakRef self, args)
              (cache st)) as [[hit rest]|] eqn:E.
  - assert (Hf : first
                 = (snd hit, State (roots st) (hit :: rest) (invocations st))).
    { unfold first, inner, _func. destruct (Z.leb_spec maxsize 0); [lia|].
      cbn [referent]. rewrite E. reflexivity. }
    clearbody first. subst first. cbn [fst snd].
    unfold inner, _func. destruct (Z.leb_spec maxsize 0); [lia|].
    cbn [cache roots invocations referent lookup].
    destruct (lookup_strong _ _ _ E) as [Hk Hmem].
    rewrite (key_eqb_ext
               (alive_in_call
                  (State (roots st) (hit :: rest) (invocations st)) self args)
               (alive_in_call st self args)).
    + rewrite Hk. cbn. repeat split; reflexivity.
    + intros a. unfold alive_in_call, alive. cbn [roots cache].
      rewrite Hmem. reflexivity.
  - destruct (Z.to_nat maxsize) as [|n] eqn:En; [lia|].
    assert (Hf : first
                 = (func self args,
                    State (roots st)
                          (((WeakRef self, args), func self args)
                             :: firstn n (cache st))
                          (invocations st ++ [(self, args)]))).
    { unfold first, inner, _func. destruct (Z.leb_spec maxsize 0); [lia|].
      cbn [referent]. rewrite E, En. reflexivity. }
    clearbody first. subst first. cbn [fst snd].
    unfold inner, _func. destruct (Z.leb_spec maxsize 0); [lia|].
    cbn [cache roots invocations referent lookup fst].
    rewrite key_eqb_refl. cbn. repeat split; reflexivity.
Qed.

End Hits.

(** The statement of X15 on a receiver that compares by value. *)
Lemma repeated_call_is_a_hit_witness :
  fst (inner sample_heap 128 whoami
         (snd (inner sample_heap 128 whoami (start [0]) 0 [VInt 7])) 0 [VInt 7])
  = fst (inner sample_heap 128 whoami (start [0]) 0 [VInt 7])
  /\ invocations
       (snd (inner sample_heap 128 whoami
               (snd (inner sample_heap 128 whoami (start [0]) 0 [VInt 7]))
               0 [VInt 7]))
     = invocations (snd (inner sample_heap 128 whoami (start [0]) 0 [VInt 7]))
  /\ cache
       (snd (inner sample_heap 128 whoami
               (snd (inner sample_heap 128 whoami (start [0]) 0 [VInt 7]))
               0 [VInt 7]))
     = cache (snd (inner sample_heap 128 whoami (start [0]) 0 [VInt 7])).
Proof.
  apply (@repeated_call_is_a_hit sample_heap 128 whoami (start [0]) 0 [VInt 7]).
  lia.
Defined.

Section Eviction.

Variable heap : addr -> object.
Variable maxsize : Z.
Variable func : addr -> list value -> value.
Variable xs : list value.

Local Abbreviation entry_of :=
  (fun r : addr => ((WeakRef r, xs), func r xs) : entry).

Lemma lookup_miss live (r : addr) (c : list entry) :
  kind (heap r) = ByIdentity ->
  Forall (fun e => referent (fst (fst e)) <> r) c ->
  lookup heap live (WeakRef r, xs) c = None.
Proof.
  intros Hkind H. induction H as [|e c He Hc IH]; [reflexivity|].
  cbn [lookup]. rewrite IH.
  match goal with
  | |- (if ?b then _ else _) = _ => assert (E : b = false); [|rewrite E; reflexivity]
  end.
  destruct e as [[[r'] ys] v]. cbn [fst snd referent] in He.
  unfold key_eqb, weakref_eqb, obj_eqb. cbn [fst snd referent].
  apply Nat.eqb_neq in He. rewrite He, Hkind.
  destruct (live r' && live r); destruct (kind (heap r')); reflexivity.
Qed.

Lemma firstn_app_firstn (A : Type) (l l' : list A) :
  forall n k, n <= k -> firstn n (l ++ firstn k l') = firstn n (l ++ l').
Proof.
  induction l as [|x l IH]; intros n k Hnk.
  - cbn [app]. rewrite firstn_firstn. f_equal. lia.
  - destruct n as [|n]; [reflexivity|]. cbn [app firstn]. f_equal.
    apply IH. lia.
Qed.

Lemma Forall_firstn_of (A : Type) (P : A -> Prop) (n : nat) (l : list A) :
  Forall P l -> Forall P (firstn n l).
Proof.
  intros H. rewrite <- (firstn_skipn n l) in H.
  apply Forall_app in H. exact (proj1 H).
Qed.

Lemma call_miss (st : state) (r : addr) :
  (1 <= maxsize)%Z ->
  kind (heap r) = ByIdentity ->
  Forall (fun e => referent (fst (fst e)) <> r) (cache st) ->
  step heap maxsize func st (Call r xs)
  = State (roots st)
          (firstn (Z.to_nat maxsize) (entry_of r :: cache st))
          (invocations st ++ [(r, xs)]).
Proof.
  intros Hm Hkind Hc. cbn [step]. unfold inner, _func.
  destruct (Z.leb_spec maxsize 0); [lia|].
  cbn [referent]. rewrite (lookup_miss _ Hkind Hc). reflexivity.
Qed.

Lemma run_distinct_receivers :
  (1 <= maxsize)%Z ->
  forall (p : list addr) (st : state),
    NoDup p ->
    Forall (fun r => kind (heap r) = ByIdentity) p ->
    Forall (fun e => ~ In (referent (fst (fst e))) p) (cache st) ->
    length (cache st) <= Z.to_nat maxsize ->
    cache (run heap maxsize func (map (fun r => Call r xs) p) st)
    = firstn (Z.to_nat maxsize) (rev (map entry_of p) ++ cache st)
    /\ invocations (run heap maxsize func (map (fun r => Call r xs) p) st)
       = invocations st ++ map (fun r => (r, xs)) p.
Proof.
  intros Hm. unfold run.
  induction p as [|r p IH]; intros st Hnd Hid Hc Hlen.
  - cbn. rewrite firstn_all2 by lia. rewrite app_nil_r. split; reflexivity.
  - inversion Hnd as [|? ? Hr Hnd']; subst.
    inversion Hid as [|? ? Hkind Hid']; subst.
    cbn [map fold_left].
    rewrite call_miss; [|exact Hm | exact Hkind|].
    + match goal with
      | |- context [fold_left _ _ ?st1] =>
          destruct (IH st1 Hnd' Hid') as [Hcache Hinv]
      end.
      * cbn [cache]. apply Forall_firstn_of. constructor.
        -- cbn [fst referent]. exact Hr.
        -- eapply Forall_impl; [|exact Hc]. cbn. intros e He Hin.
           apply He. right. exact Hin.
      * cbn [cache]. rewrite length_firstn. lia.
      * cbn [cache invocations] in *. split.
        -- rewrite Hcache. rewrite firstn_app_firstn by lia.
           cbn [map rev]. rewrite <- app_assoc. reflexivity.
        -- rewrite Hinv. rewrite <- app_assoc. reflexivity.
    + eapply Forall_impl; [|exact Hc]. cbn. intros e He Heq.
      apply He. left. symmetry. exact Heq.
Qed.

(** X16. Least recently used goes first: when more receivers than the
    cache has room for, all distinct and compared by identity, call the
    method in turn with the same arguments on an empty cache, the entry of
    the first receiver has been evicted, and a new call on it invokes the
    method again. *)
Theorem least_recently_used_is_evicted (r0 : addr) (rs : list addr)
        (held : list addr) :
  (1 <= maxsize)%Z ->
  NoDup (r0 :: rs) ->
  Forall (fun r => kind (heap r) = ByIdentity) (r0 :: rs) ->
  Z.to_nat maxsize <= length rs ->
  invocations
    (run heap maxsize func
         (map (fun r => Call r xs) (r0 :: rs) ++ [Call r0 xs]) (start held))
  = map (fun r => (r, xs)) (r0 :: rs) ++ [(r0, xs)].
Proof.
  intros Hm Hnd Hid Hlen.
  destruct (@run_distinct_receivers Hm (r0 :: rs) (start held) Hnd Hid)
    as [Hcache Hinv]; [constructor | cbn; lia|].
  unfold run in *. rewrite fold_left_app.
  cbn [fold_left]. rewrite call_miss.
  - cbn [invocations]. rewrite Hinv. reflexivity.
  - exact Hm.
  - inversion Hid; assumption.
  - rewrite Hcache. cbn [start cache]. rewrite app_nil_r.
    cbn [map rev]. rewrite firstn_app.
    replace (Z.to_nat maxsize - length (rev (map entry_of rs))) with 0
      by (rewrite length_rev, length_map; lia).
    cbn [firstn]. rewrite app_nil_r. apply Forall_firstn_of.
    apply Forall_forall. intros e He. apply in_rev in He.
    apply in_map_iff in He. destruct He as (r & <- & Hr).
    cbn [fst referent]. inversion Hnd; subst. intros ->. contradiction.
Qed.

End Eviction.

(** The statement of X16 on a cache of two entries and three receivers. *)
Lemma least_recently_used_is_evicted_witness :
  invocations
    (run sample_heap 2 whoami
         (map (fun r => Call r [VInt 7]) [2; 3; 4] ++ [Call 2 [VInt 7]])
         (start [2; 3; 4]))
  = map (fun r => (r, [VInt 7])) [2; 3; 4] ++ [(2, [VInt 7])].
Proof.
  apply (@least_recently_used_is_evicted sample_heap 2 whoami [VInt 7] 2
           [3; 4] [2; 3; 4]).
  - lia.
  - repeat constructor; cbn; intuition discriminate.
  - repeat constructor.
  - cbn. lia.
Defined.

Section Transparency.

Variable heap : addr -> object.
Variable maxsize : Z.
Variable func : addr -> list value -> value.

Hypothesis by_identity : forall a, kind (heap a) = ByIdentity.

Lemma obj_eqb_identity (a b : addr) : obj_eqb heap a b = true -> a = b.
Proof.
  unfold obj_eqb. rewrite (by_identity a). rewrite orb_false_r.
  apply Nat.eqb_eq.
Qed.

Lemma args_eqb_identity (xs : list value) :
  forall ys, args_eqb heap xs ys = true -> xs = ys.
Proof.
  induction xs as [|x xs IH]; intros [|y ys] H; try discriminate;
    [reflexivity|].
  cbn [args_eqb] in H. apply andb_true_iff in H. destruct H as [Hx Hxs].
  f_equal; [|apply IH; exact Hxs].
  destruct x, y; cbn [value_eqb] in Hx; try discriminate.
  - apply Z.eqb_eq in Hx. congruence.
  - apply obj_eqb_identity in Hx. congruence.
Qed.

Lemma key_eqb_identity live (k1 k2 : key) :
  key_eqb heap live k1 k2 = true -> k1 = k2.
Proof.
  destruct k1 as [[r1] xs], k2 as [[r2] ys].
  unfold key_eqb, weakref_eqb. cbn [fst snd referent]. intros H.
  apply andb_true_iff in H. destruct H as [Hr Hx].
  apply args_eqb_identity in Hx. subst ys.
  assert (r1 = r2).
  { destruct (live r1 && live r2);
      [apply obj_eqb_identity | apply Nat.eqb_eq]; exact Hr. }
  subst. reflexivity.
Qed.

Lemma lookup_coherent live k (c : list entry) hit rest :
  lookup heap live k c = Some (hit, rest) ->
  coherent func c ->
  fst hit = k /\ coherent func (hit :: rest).
Proof.
  unfold coherent. revert hit rest.
  induction c as [|e c IH]; intros hit rest H Hc; [discriminate|].
  cbn [lookup] in H. inversion Hc as [|? ? He Hc']; subst.
  destruct (key_eqb heap live (fst e) k) eqn:E.
  - inversion H; subst. split; [|exact Hc].
    apply (key_eqb_identity _ _ _ E).
  - destruct (lookup heap live k c) as [[h r]|]; [|discriminate].
    injection H as Hh Hr. subst hit rest.
    destruct (IH h r eq_refl Hc') as [Hk Hhr]. split; [exact Hk|].
    inversion Hhr; subst. repeat constructor; assumption.
Qed.

Lemma inner_coherent (st : state) (self : addr) (args : list value) :
  coherent func (cache st) ->
  fst (inner heap maxsize func st self args) = func self args
  /\ coherent func (cache (snd (inner heap maxsize func st self args))).
Proof.
  intros Hc. unfold inner, _func.
  destruct (maxsize <=? 0)%Z; [split; [reflexivity | exact Hc]|].
  cbn [referent].
  destruct (lookup heap _ _ (cache st)) as [[hit rest]|] eqn:E;
    cbn [fst snd cache].
  - destruct (@lookup_coherent _ _ _ _ _ E Hc) as [Hk Hhr]. split; [|exact Hhr].
    destruct hit as [[[r] ys] v]. cbn [fst] in Hk.
    apply Forall_inv in Hhr. cbn [fst snd referent] in Hhr.
    inversion Hk; subst. reflexivity.
  - split; [reflexivity|]. unfold coherent in *.
    apply Forall_firstn_of. constructor; [reflexivity | exact Hc].
Qed.

(** X17. For receivers and arguments that compare by identity, memoization
    cannot be observed in the results: from a cache whose entries hold
    what the method returns, and so from the empty cache, after any calls
    and drops every call returns what the method returns for its receiver
    and arguments. *)
Theorem memoization_is_transparent (ops : list op) (st : state)
        (self : addr) (args : list value) :
  coherent func (cache st) ->
  fst (inner heap maxsize func (run heap maxsize func ops st) self args)
  = func self args.
Proof.
  intros Hc. apply inner_coherent.
  revert st Hc. unfold run.
  induction ops as [|o ops IH]; intros st Hc; [exact Hc|].
  cbn [fold_left]. apply IH. destruct o as [r xs | a]; cbn [step].
  - apply inner_coherent. exact Hc.
  - exact Hc.
Qed.

End Transparency.

(** The statement of X17 on a heap where every object compares by
    identity. *)
Lemma memoization_is_transparent_witness :
  fst (inner (fun _ => Object ByIdentity 0) 2 whoami
         (run (fun _ => Object ByIdentity 0) 2 whoami
              [Call 0 [VInt 7]; Call 1 [VInt 7]; Del 0; Call 1 [VInt 7]]
              (start [0; 1]))
         1 [VInt 7])
  = whoami 1 [VInt 7].
Proof.
  apply (@memoization_is_transparent (fun _ => Object ByIdentity 0) 2 whoami
           (fun _ => eq_refl)
           [Call 0 [VInt 7]; Call 1 [VInt 7]; Del 0; Call 1 [VInt 7]]
           (start [0; 1]) 1 [VInt 7]).
  constructor.
Defined.

End WeakLruEdgeFacts.

(** ** with_embeddings at its edges *)

Module TableEdgeFacts.

Local Open Scope nat_scope.

Section BatchSize.

Variables cell Vec S DataFrame : Type.
Variable from_pandas : DataFrame -> Arrow.Table cell.
Variable vec_to_table : list Vec -> result (Arrow.column cell).

(** X18. [with_embeddings] does not check its batch size, but a batch size
    that is not positive never gives a table: on a table with rows and an
    existing column it raises, without invoking the embedding function.
    With zero the error is the one of the batcher; with a negative size no
    embedding is computed, and the empty vector column is refused by the
    table (or by [vec_to_table]). *)
Theorem with_embeddings_needs_positive_batch_size
        (func : list cell -> S -> result (list Vec) * S)
        (data : DATA cell DataFrame) (column : string)
        (wrap_api show_progress : bool) (batch_size : Z) (w : world S)
        (col : Arrow.column cell) :
  (forall es c, vec_to_table es = Ok c -> length c = length es) ->
  (batch_size <= 0)%Z ->
  Arrow.getitem (table_of from_pandas data) column = Ok col ->
  0 < Arrow.num_rows (table_of from_pandas data) ->
  exists e w',
    with_embeddings from_pandas vec_to_table func data column wrap_api
                    show_progress batch_size w
    = (Err e, w')
    /\ user w' = user w.
Proof.
  intros Hrows Hb Hcol Hn.
  destruct (TableFacts.configured_ok func wrap_api show_progress batch_size)
    as (wrapper & Hcfg & _ & Hbs).
  unfold with_embeddings. unfold bind at 1. unfold lift_result at 1.
  rewrite Hcfg. unfold bind at 1. unfold lift_result at 1. rewrite Hcol.
  unfold bind at 1. unfold Arrow.to_numpy.
  destruct (PipelineEdgeFacts.call_on_batches wrapper col w)
    as (embed_func & w0 & _ & Hu & Hcall).
  rewrite Hcall.
  destruct (Z.eq_dec batch_size 0) as [Hz | Hnz].
  - subst batch_size.
    rewrite (PipelineEdgeFacts.to_batches_zero wrapper col Hbs).
    eexists _, w0. split; [reflexivity | exact Hu].
  - rewrite (PipelineEdgeFacts.to_batches_negative wrapper col Hbs)
      by lia.
    cbn [FunctionWrapper.comprehension ret]. unfold bind, lift_result.
    destruct (vec_to_table []) as [vector|e] eqn:Hvec.
    + unfold Arrow.append_column.
      pose proof (Hrows [] vector Hvec) as Hlen. cbn [length] in Hlen.
      rewrite Hlen.
      destruct (Nat.eqb_spec 0 (Arrow.num_rows (table_of from_pandas data)));
        [lia|].
      eexists _, w0. split; [reflexivity | exact Hu].
    + eexists _, w0. split; [reflexivity | exact Hu].
Qed.

End BatchSize.

(** The statement of X18 on a table of three rows and a batch size of
    [-1]. *)
Lemma with_embeddings_needs_positive_batch_size_witness :
  exists e w',
    with_embeddings (fun _ : unit => []) sample_vec_to_table sample_embed
      (PaTable unit sample_table) "text" true false (-1) (sample_world tt 10)
    = (Err e, w')
    /\ user w' = user (sample_world tt 10).
Proof.
  apply (@with_embeddings_needs_positive_batch_size sample_cell (list nat)
           unit unit (fun _ => []) sample_vec_to_table sample_embed
           (PaTable unit sample_table) "text" true false (-1)%Z
           (sample_world tt 10)
           [inl "a"%string; inl "bb"%string; inl "ccc"%string]).
  - intros es c H. inversion H. apply length_map.
  - lia.
  - reflexivity.
  - cbn. lia.
Defined.

End TableEdgeFacts.
